(** * Noode coordination layer: consensus, messages, agent runtime, orchestrator

    A shallow embedding of the coordination core of the Noode multi-agent
    system ([noode/protocols/consensus.py], [noode/protocols/messages.py],
    [noode/core/base_agent.py], [noode/core/orchestrator.py]) together with
    the properties that its specification states about it.

    Conventions of the embedding.
    - Python [str] values are [string]s whose characters are read as the
      code points 0..255; [lower], [\s] and [\d] follow Python on that range.
    - Python [float] confidences are idealised as exact rationals ([Q]);
      an [int] is a [Z]; a [datetime] is an opaque [Z] instant.
    - Python [dict]s keep insertion order and are association lists with
      unique keys ([dict_set] replaces in place or appends).
    - [SubTask] objects are mutable and shared between the caller, the
      project that holds them and the task queue: they live in a store
      addressed by references, and the containers hold references.
    - Values that Python generates when an object is built (uuid message
      ids, [datetime.now()]) are extra arguments of the embedded function.
    - Logging calls have no effect on the state and are left out. *)

From Stdlib Require Import List String Ascii ZArith QArith Bool Arith Lia.
Import ListNotations.

Local Close Scope Q_scope.
Local Open Scope nat_scope.
Local Open Scope string_scope.
Local Open Scope list_scope.

(** ** Python text primitives *)

Module Text.

Definition code (c : ascii) : nat := nat_of_ascii c.

(** [str.isupper] on code points below 256: A-Z and the Latin-1 capital
    letters U+00C0..U+00DE without the multiplication sign U+00D7. *)
Definition is_upper (c : ascii) : bool :=
  let n := code c in
  ((65 <=? n) && (n <=? 90)
   || (192 <=? n) && (n <=? 222) && negb (n =? 215))%nat.

Definition lower_char (c : ascii) : ascii :=
  if is_upper c then ascii_of_nat (code c + 32) else c.

(** [s.lower()] *)
Fixpoint lower (s : string) : string :=
  match s with
  | EmptyString => EmptyString
  | String c s' => String (lower_char c) (lower s')
  end.

(** [s.startswith(p)] *)
Fixpoint startswith (p s : string) : bool :=
  match p, s with
  | EmptyString, _ => true
  | String _ _, EmptyString => false
  | String a p', String b s' => Ascii.eqb a b && startswith p' s'
  end.

(** [needle in hay] on strings: [needle] occurs as a contiguous run. *)
Fixpoint contains (needle hay : string) : bool :=
  startswith needle hay
  || match hay with
     | EmptyString => false
     | String _ hay' => contains needle hay'
     end.

(** Truthiness of a [str]: only the empty string is falsy. *)
Definition truthy (s : string) : bool :=
  match s with EmptyString => false | String _ _ => true end.

(** Truthiness of a [str | None]. *)
Definition truthy_opt (o : option string) : bool :=
  match o with Some s => truthy s | None => false end.

(** [a or b] where [a : str | None] and [b : str]. *)
Definition or_else (a : option string) (b : string) : string :=
  match a with
  | Some s => if truthy s then s else b
  | None => b
  end.

(** [\d] of the [re] module on code points below 256. *)
Definition is_digit (c : ascii) : bool :=
  let n := code c in ((48 <=? n) && (n <=? 57))%nat.

(** [\s] of the [re] module on code points below 256: tab, LF, VT, FF, CR,
    the separators U+001C..U+001F, space, NEL U+0085 and NBSP U+00A0. *)
Definition is_space (c : ascii) : bool :=
  let n := code c in
  ((9 <=? n) && (n <=? 13) || (28 <=? n) && (n <=? 32)
   || (n =? 133) || (n =? 160))%nat.

End Text.

(** ** protocols/consensus.py *)

Module Consensus.
Import Text.

Inductive VoteType := APPROVE | REJECT | ABSTAIN | REQUEST_CHANGES.

Definition VoteType_eqb (a b : VoteType) : bool :=
  match a, b with
  | APPROVE, APPROVE | REJECT, REJECT | ABSTAIN, ABSTAIN
  | REQUEST_CHANGES, REQUEST_CHANGES => true
  | _, _ => false
  end.

Record Vote := mkVote {
  voter : string;
  vote_type : VoteType;
  confidence : Q;
  reasoning : string;
  concerns : list string;
  timestamp : Z
}.

Record ConsensusResult := mkConsensusResult {
  res_decision_id : string;
  approved : bool;
  votes : list Vote;
  final_decision : string;
  dissenting_opinions : list string;
  conditions : list string
}.

Record ConsensusBuilder := mkConsensusBuilder {
  decision_id : string;
  topic : string;
  required_approvals : Z;
  allow_veto : bool;
  _votes : list Vote;
  _vetoed : bool;
  _veto_reason : option string
}.

(** [ConsensusBuilder.__init__] *)
Definition init (decision_id topic : string)
    (required_approvals : Z) (allow_veto : bool) : ConsensusBuilder :=
  mkConsensusBuilder decision_id topic required_approvals allow_veto
                     [] false None.

(** The [for existing in self._votes: if existing.voter == vote.voter]
    scan of [add_vote]. *)
Definition has_voted (self : ConsensusBuilder) (name : string) : bool :=
  existsb (fun existing => String.eqb (voter existing) name) (_votes self).

(** Truthiness of a list. *)
Definition nonempty {A} (l : list A) : bool :=
  match l with [] => false | _ :: _ => true end.

(** [ConsensusBuilder.add_vote] *)
Definition add_vote (self : ConsensusBuilder) (vote : Vote)
  : ConsensusBuilder :=
  if has_voted self (voter vote) then self
  else
    let appended := _votes self ++ [vote] in
    if allow_veto self && VoteType_eqb (vote_type vote) REJECT
       && (contains "security" (lower (voter vote))
           && nonempty (concerns vote))
    then
      mkConsensusBuilder (decision_id self) (topic self)
        (required_approvals self) (allow_veto self) appended true
        (Some ("Security veto: " ++ hd EmptyString (concerns vote))%string)
    else
      mkConsensusBuilder (decision_id self) (topic self)
        (required_approvals self) (allow_veto self) appended
        (_vetoed self) (_veto_reason self).

(** [sum(v.confidence for v in self._votes if v.vote_type == ty)]:
    Python's [sum] folds from the left starting at 0. *)
Definition weight (ty : VoteType) (vs : list Vote) : Q :=
  fold_left Qplus
    (map confidence
         (filter (fun v => VoteType_eqb (vote_type v) ty) vs))
    0%Q.

(** [a > b] on numbers. *)
Definition Qgt_bool (a b : Q) : bool := negb (Qle_bool a b).

(** The [conditions] loop of [get_result]. *)
Fixpoint collect_conditions (vs : list Vote) (acc : list string)
  : list string :=
  match vs with
  | [] => acc
  | vote :: rest =>
      if VoteType_eqb (vote_type vote) REQUEST_CHANGES
      then collect_conditions rest (acc ++ concerns vote)
      else collect_conditions rest acc
  end.

(** [ConsensusBuilder.get_result] *)
Definition get_result (self : ConsensusBuilder) : ConsensusResult :=
  if _vetoed self then
    mkConsensusResult (decision_id self) false (_votes self)
      (or_else (_veto_reason self) "Vetoed")
      (map reasoning
         (filter (fun v => VoteType_eqb (vote_type v) REJECT
                           || VoteType_eqb (vote_type v) REQUEST_CHANGES)
                 (_votes self)))
      []
  else
    let approvals := weight APPROVE (_votes self) in
    let rejections := weight REJECT (_votes self) in
    let approved :=
      Qle_bool (inject_Z (required_approvals self)) approvals
      && Qgt_bool approvals rejections in
    let conditions := collect_conditions (_votes self) [] in
    mkConsensusResult (decision_id self) approved (_votes self)
      (if approved then "Approved" else "Rejected")
      (map reasoning
         (filter (fun v => VoteType_eqb (vote_type v) REJECT)
                 (_votes self)))
      conditions.

(** [ConsensusBuilder.is_complete] *)
Definition is_complete (self : ConsensusBuilder) : bool :=
  if _vetoed self then true
  else (required_approvals self <=? Z.of_nat (List.length (_votes self)))%Z.

(** [ConsensusBuilder.pending_count] *)
Definition pending_count (self : ConsensusBuilder) : Z :=
  Z.max 0 (required_approvals self - Z.of_nat (List.length (_votes self))).

(** The builder after a sequence of [add_vote] calls. *)
Definition add_votes (self : ConsensusBuilder) (vs : list Vote)
  : ConsensusBuilder :=
  fold_left add_vote vs self.

End Consensus.

(** ** protocols/messages.py *)

Module Messages.
Import Text.

Inductive MessageType :=
| REQUEST | RESPONSE | ESCALATION | BROADCAST
| REVIEW | APPROVAL | REJECTION | STATUS.

Inductive Priority := LOW | NORMAL | HIGH | CRITICAL.

Record TaskRequest := mkTaskRequest {
  req_task_id : string;
  task_type : string;
  req_description : string;
  parameters : list (string * string);
  deadline : option Z;
  req_dependencies : list string
}.

(** [output: Any] is kept as text. *)
Record TaskResult := mkTaskResult {
  res_task_id : string;
  success : bool;
  output : string;
  res_artifacts : list string;
  error : option string;
  metrics : list (string * Q)
}.

Record ReviewRequest := mkReviewRequest {
  change_id : string;
  change_type : string;
  rev_description : string;
  diff : string;
  files_changed : list string;
  author : string;
  reviewers_needed : Z
}.

(** The payloads ([content: Any]) that the coordination layer builds or
    forwards. *)
Inductive Content :=
| CText (s : string)
| CTaskRequest (r : TaskRequest)
| CReviewRequest (r : ReviewRequest).

Record AgentMessage := mkAgentMessage {
  sender : string;
  receiver : string;
  message_type : MessageType;
  content : Content;
  confidence : Q;
  timestamp : Z;
  priority : Priority;
  correlation_id : option string;
  in_reply_to : option string;
  message_id : string
}.

(** [AgentMessage.create_reply].  The dataclass defaults fill the fields
    the call leaves out: [timestamp] is [now], [priority] is [NORMAL] and
    [message_id] is the freshly generated [new_id]. *)
Definition create_reply (self : AgentMessage) (sender : string)
    (content : Content) (message_type : MessageType) (confidence : Q)
    (now : Z) (new_id : string) : AgentMessage :=
  mkAgentMessage sender (Messages.sender self) message_type content
    confidence now NORMAL
    (Some (or_else (correlation_id self) (message_id self)))
    (Some (message_id self))
    new_id.

End Messages.

(** ** The fragment of Python's [re] used by the agent runtime *)

Module Re.
Import Text.

(** Patterns built from literals, a character class under [+], [*] or
    [?] (all greedy), concatenation and one capture group. *)
Inductive regex :=
| Lit (s : string)
| Plus (cls : ascii -> bool)
| Star (cls : ascii -> bool)
| Opt (cls : ascii -> bool)
| Seq (r1 r2 : regex)
| Group (r : regex).

(** A position of the backtracking matcher: [cur] is the text consumed
    since the capture group was opened (since the start of the attempt
    before that), [rest] the unread input, [group1] the capture. *)
Record mstate := mkMstate {
  cur : string;
  rest : string;
  group1 : option string
}.

Definition snoc (s : string) (c : ascii) : string :=
  (s ++ String c EmptyString)%string.

Fixpoint strip_prefix (p s : string) : option string :=
  match p, s with
  | EmptyString, _ => Some s
  | String _ _, EmptyString => None
  | String a p', String b s' =>
      if Ascii.eqb a b then strip_prefix p' s' else None
  end.

Section Matcher.
Variable cls : ascii -> bool.
Variable g : option string.
Variable k : mstate -> option mstate.

(** Greedy [cls*]: take the longest run first, give characters back one
    at a time while the continuation fails. *)
Fixpoint m_star (cur rest : string) : option mstate :=
  match rest with
  | String c rest' =>
      if cls c then
        match m_star (snoc cur c) rest' with
        | Some m => Some m
        | None => k (mkMstate cur rest g)
        end
      else k (mkMstate cur rest g)
  | EmptyString => k (mkMstate cur rest g)
  end.

Definition m_plus (cur rest : string) : option mstate :=
  match rest with
  | String c rest' => if cls c then m_star (snoc cur c) rest' else None
  | EmptyString => None
  end.

Definition m_opt (cur rest : string) : option mstate :=
  match rest with
  | String c rest' =>
      if cls c then
        match k (mkMstate (snoc cur c) rest' g) with
        | Some m => Some m
        | None => k (mkMstate cur rest g)
        end
      else k (mkMstate cur rest g)
  | EmptyString => k (mkMstate cur rest g)
  end.
End Matcher.

(** Match [r] at the position [st], then the continuation [k]; the first
    success in backtracking order is the result. *)
Fixpoint rmatch (r : regex) (st : mstate)
    (k : mstate -> option mstate) : option mstate :=
  match r with
  | Lit l =>
      match strip_prefix l (rest st) with
      | Some rest' => k (mkMstate (cur st ++ l)%string rest' (group1 st))
      | None => None
      end
  | Plus cls => m_plus cls (group1 st) k (cur st) (rest st)
  | Star cls => m_star cls (group1 st) k (cur st) (rest st)
  | Opt cls => m_opt cls (group1 st) k (cur st) (rest st)
  | Seq r1 r2 => rmatch r1 st (fun st' => rmatch r2 st' k)
  | Group r1 =>
      rmatch r1 (mkMstate EmptyString (rest st) (group1 st))
        (fun st' => k (mkMstate (cur st') (rest st') (Some (cur st'))))
  end.

(** [re.search(r, s)]: the match at the leftmost position that has one. *)
Fixpoint search (r : regex) (s : string) : option mstate :=
  match rmatch r (mkMstate EmptyString s None) Some with
  | Some m => Some m
  | None =>
      match s with
      | EmptyString => None
      | String _ s' => search r s'
      end
  end.

End Re.

(** ** core/base_agent.py *)

Module Agent.
Import Text Re.

Inductive AgentState := IDLE | THINKING | ACTING | WAITING | ERROR.

(** [BaseAgent] without its [AgentMemory], which the coordination
    operations below never read. *)
Record BaseAgent := mkBaseAgent {
  name : string;
  role : string;
  capabilities : list string;
  model : string;
  confidence_threshold : Q;
  state : AgentState;
  _message_queue : list Messages.AgentMessage
}.

(** [BaseAgent.__init__] *)
Definition init (name role : string) (capabilities : list string)
    (model : string) (confidence_threshold : Q) : BaseAgent :=
  mkBaseAgent name role capabilities model confidence_threshold IDLE [].

(** [BaseAgent.receive_message] *)
Definition receive_message (self : BaseAgent)
    (message : Messages.AgentMessage) : BaseAgent :=
  mkBaseAgent (name self) (role self) (capabilities self) (model self)
    (confidence_threshold self) (state self)
    (_message_queue self ++ [message]).

Definition is_char (a c : ascii) : bool := Ascii.eqb c a.

(** The class [[:\s]]. *)
Definition colon_or_space (c : ascii) : bool :=
  is_char ":" c || is_space c.

(** [\d+\.?\d*] *)
Definition number : regex :=
  Seq (Plus is_digit) (Seq (Opt (is_char ".")) (Star is_digit)).

(** The [patterns] list of [_extract_confidence], in order: the word
    confidence, then [[:\s]+], then the group; the group, then [\s*] and
    a percent sign; the group, then [\s*], a slash, [\s*] and the digit 1.
    The group is [number] in all three. *)
Definition patterns : list regex :=
  [ Seq (Lit "confidence") (Seq (Plus colon_or_space) (Group number));
    Seq (Group number) (Seq (Star is_space) (Lit "%"));
    Seq (Group number)
        (Seq (Star is_space)
             (Seq (Lit "/") (Seq (Star is_space) (Lit "1")))) ].

(** The longest prefix of [s] made of characters of [cls], and what
    follows it. *)
Fixpoint span (cls : ascii -> bool) (s : string) : string * string :=
  match s with
  | String c s' =>
      if cls c then let (a, b) := span cls s' in (String c a, b)
      else (EmptyString, s)
  | EmptyString => (EmptyString, EmptyString)
  end.

(** The number written by a run of decimal digits, most significant
    first. *)
Fixpoint digits_val (acc : Z) (s : string) : Z :=
  match s with
  | String c s' => digits_val (10 * acc + Z.of_nat (code c - 48)) s'
  | EmptyString => acc
  end.

(** [float(g)] for text of the form [digits] or [digits.digits] (the
    fraction may be empty), which is all a capture of [number] can hold;
    [None] stands for the [ValueError] of other text. *)
Definition float_of (g : string) : option Q :=
  let (d1, r1) := span is_digit g in
  match d1, r1 with
  | EmptyString, _ => None
  | _, EmptyString => Some (inject_Z (digits_val 0 d1))
  | _, String c r2 =>
      if is_char "." c then
        let (d2, r3) := span is_digit r2 in
        match r3 with
        | EmptyString =>
            Some (Qmake (digits_val 0 (d1 ++ d2)%string)
                        (Z.to_pos (10 ^ Z.of_nat (String.length d2))))
        | String _ _ => None
        end
      else None
  end.

(** The [for pattern in patterns] loop of [_extract_confidence] over the
    lower-cased text; [None] stands for an exception. *)
Fixpoint scan (ps : list regex) (text : string) : option Q :=
  match ps with
  | [] => Some (1 # 2)%Q
  | pattern :: ps' =>
      match search pattern text with
      | Some m =>
          match group1 m with
          | Some g =>
              match float_of g with
              | Some value =>
                  Some (if Consensus.Qgt_bool value 1
                        then (value / 100)%Q else value)
              | None => None
              end
          | None => None
          end
      | None => scan ps' text
      end
  end.

(** [BaseAgent._extract_confidence] *)
Definition _extract_confidence (content : string) : option Q :=
  scan patterns (lower content).

End Agent.

(** ** core/orchestrator.py *)

Module Orch.
Import Text.

Inductive TaskStatus :=
| PENDING | ASSIGNED | IN_PROGRESS | REVIEW | COMPLETED | FAILED | BLOCKED.

Definition TaskStatus_eqb (a b : TaskStatus) : bool :=
  match a, b with
  | PENDING, PENDING | ASSIGNED, ASSIGNED | IN_PROGRESS, IN_PROGRESS
  | REVIEW, REVIEW | COMPLETED, COMPLETED | FAILED, FAILED
  | BLOCKED, BLOCKED => true
  | _, _ => false
  end.

(** [SubTask] *)
Record SubTask := mkSubTask {
  task_id : string;
  parent_id : option string;
  description : string;
  assigned_agent : option string;
  status : TaskStatus;
  dependencies : list string;
  result : option Messages.TaskResult;
  created_at : Z;
  completed_at : option Z
}.

Definition set_assigned_agent (t : SubTask) (a : option string) : SubTask :=
  mkSubTask (task_id t) (parent_id t) (description t) a (status t)
    (dependencies t) (result t) (created_at t) (completed_at t).

Definition set_status (t : SubTask) (s : TaskStatus) : SubTask :=
  mkSubTask (task_id t) (parent_id t) (description t) (assigned_agent t) s
    (dependencies t) (result t) (created_at t) (completed_at t).

(** *** Insertion-ordered dictionaries with [str] keys *)

Definition dict (V : Type) := list (string * V).

Fixpoint dict_get {V} (k : string) (d : dict V) : option V :=
  match d with
  | [] => None
  | (k', v) :: d' => if String.eqb k' k then Some v else dict_get k d'
  end.

(** [k in d] *)
Definition dict_mem {V} (k : string) (d : dict V) : bool :=
  match dict_get k d with Some _ => true | None => false end.

(** [d[k] = v]: an existing key keeps its place, a new one goes last. *)
Fixpoint dict_set {V} (k : string) (v : V) (d : dict V) : dict V :=
  match d with
  | [] => [(k, v)]
  | (k', v') :: d' =>
      if String.eqb k' k then (k', v) :: d'
      else (k', v') :: dict_set k v d'
  end.


(** *** The store of [SubTask] objects *)

Definition ref := nat.
Definition store := ref -> SubTask.

Definition upd (h : store) (r : ref) (t : SubTask) : store :=
  fun r' => if Nat.eqb r' r then t else h r'.

Record ProjectState := mkProjectState {
  project_id : string;
  name : string;
  project_description : string;
  tasks : dict ref;
  artifacts : list string;
  metadata : dict string
}.

Record Orchestrator := mkOrchestrator {
  _agents : dict Agent.BaseAgent;
  _projects : dict ProjectState;
  _task_queue : list ref;
  _message_queue : list Messages.AgentMessage;
  _running : bool;
  heap : store
}.

(** [Orchestrator.__init__], over the objects that exist already. *)
Definition init (h : store) : Orchestrator :=
  mkOrchestrator [] [] [] [] false h.

Definition with_agents (self : Orchestrator) (a : dict Agent.BaseAgent)
  : Orchestrator :=
  mkOrchestrator a (_projects self) (_task_queue self)
    (_message_queue self) (_running self) (heap self).

Definition with_projects (self : Orchestrator) (p : dict ProjectState)
  : Orchestrator :=
  mkOrchestrator (_agents self) p (_task_queue self)
    (_message_queue self) (_running self) (heap self).

Definition with_task_queue (self : Orchestrator) (q : list ref)
  : Orchestrator :=
  mkOrchestrator (_agents self) (_projects self) q
    (_message_queue self) (_running self) (heap self).

Definition with_heap (self : Orchestrator) (h : store) : Orchestrator :=
  mkOrchestrator (_agents self) (_projects self) (_task_queue self)
    (_message_queue self) (_running self) h.

(** [Orchestrator.register_agent] *)
Definition register_agent (self : Orchestrator) (agent : Agent.BaseAgent)
  : Orchestrator :=
  with_agents self (dict_set (Agent.name agent) agent (_agents self)).


(** [Orchestrator.create_project]: the new state and the returned
    project. *)
Definition create_project (self : Orchestrator)
    (project_id name description : string)
  : Orchestrator * ProjectState :=
  let project := mkProjectState project_id name description [] [] [] in
  (with_projects self (dict_set project_id project (_projects self)),
   project).

(** The [# Add to project] step of [decompose_task]: the objects at
    [subtasks] are stored in the project under their task ids. *)
Definition add_to_project (self : Orchestrator) (project_id : string)
    (subtasks : list ref) : Orchestrator :=
  match dict_get project_id (_projects self) with
  | Some project =>
      let stored :=
        fold_left
          (fun ts r => dict_set (task_id (heap self r)) r ts)
          subtasks (tasks project) in
      with_projects self
        (dict_set project_id
           (mkProjectState (Orch.project_id project) (name project)
              (project_description project) stored (artifacts project)
              (metadata project))
           (_projects self))
  | None => self
  end.

(** [Orchestrator._select_agent] *)
Definition _select_agent (self : Orchestrator) (task : SubTask) : string :=
  match
    find (fun entry : string * Agent.BaseAgent =>
            existsb (fun cap =>
                       contains (lower cap) (lower (description task)))
                    (Agent.capabilities (snd entry)))
         (_agents self)
  with
  | Some (name, _) => name
  | None =>
      match _agents self with
      | (name, _) :: _ => name
      | [] => "unknown"
      end
  end.

(** [Orchestrator._dependencies_met] *)
Definition _dependencies_met (self : Orchestrator) (task : SubTask)
  : bool :=
  forallb
    (fun dep_id =>
       forallb
         (fun entry : string * ProjectState =>
            match dict_get dep_id (tasks (snd entry)) with
            | Some r => TaskStatus_eqb (status (heap self r)) COMPLETED
            | None => true
            end)
         (_projects self))
    (dependencies task).

(** [Orchestrator.assign_task] on the object at [subtask]; [new_id] and
    [now] are the id and timestamp generated for the request message. *)
Definition assign_task (self : Orchestrator) (subtask : ref)
    (new_id : string) (now : Z) : Orchestrator * bool :=
  let t0 := heap self subtask in
  let t1 :=
    if negb (truthy_opt (assigned_agent t0))
    then set_assigned_agent t0 (Some (_select_agent self t0))
    else t0 in
  let self1 := with_heap self (upd (heap self) subtask t1) in
  match assigned_agent t1 with
  | None => (self1, false)
  | Some key =>
      match dict_get key (_agents self1) with
      | None => (self1, false)
      | Some agent =>
          let request :=
            Messages.mkTaskRequest (task_id t1) "development"
              (description t1) [] None [] in
          let message :=
            Messages.mkAgentMessage "orchestrator" (Agent.name agent)
              Messages.REQUEST (Messages.CTaskRequest request) 1%Q now
              Messages.NORMAL None None new_id in
          let agent' := Agent.receive_message agent message in
          let self2 :=
            with_agents self1 (dict_set key agent' (_agents self1)) in
          (with_heap self2
             (upd (heap self2) subtask (set_status t1 ASSIGNED)),
           true)
      end
  end.

(** [Orchestrator._process_task] *)
Definition _process_task (self : Orchestrator) (task : ref)
    (new_id : string) (now : Z) : Orchestrator :=
  if negb (_dependencies_met self (heap self task)) then
    let self1 :=
      with_heap self
        (upd (heap self) task (set_status (heap self task) BLOCKED)) in
    with_task_queue self1 (_task_queue self1 ++ [task])
  else
    let (self1, ok) := assign_task self task new_id now in
    if ok then
      with_heap self1
        (upd (heap self1) task (set_status (heap self1 task) IN_PROGRESS))
    else self1.

(** [Orchestrator._route_message] *)
Definition _route_message (self : Orchestrator)
    (message : Messages.AgentMessage) : Orchestrator :=
  if String.eqb (Messages.receiver message) "broadcast" then
    with_agents self
      (map (fun entry : string * Agent.BaseAgent =>
              (fst entry, Agent.receive_message (snd entry) message))
           (_agents self))
  else
    match dict_get (Messages.receiver message) (_agents self) with
    | Some agent =>
        with_agents self
          (dict_set (Messages.receiver message)
                    (Agent.receive_message agent message) (_agents self))
    | None => self
    end.

End Orch.

(** ** The specification's own wording of derived notions *)

Module Wording.
Import Text Consensus.



(** A veto on record always comes from a recorded Reject vote of a
    security voter, whose first concern is the recorded reason. *)
Definition veto_explained (b : ConsensusBuilder) : Prop :=
  _vetoed b = true ->
  exists v c more,
    In v (_votes b) /\ vote_type v = REJECT
    /\ contains "security" (lower (voter v)) = true
    /\ concerns v = c :: more
    /\ _veto_reason b = Some ("Security veto: " ++ c)%string.

(** The votes cast under [name]. *)
Definition by_voter (name : string) (v : Vote) : bool :=
  String.eqb (voter v) name.

(** No two recorded votes share a voter name. *)
Definition distinct_voters (b : ConsensusBuilder) : Prop :=
  NoDup (map voter (_votes b)).

End Wording.

(** ** Derived notions about the orchestrator state *)

Module OrchWording.
Import Orch.

(** A dependency of [task] that some project knows and that is not
    completed. *)
Definition unmet_dependency (self : Orchestrator) (task : SubTask) : Prop :=
  exists dep pid p r,
    In dep (dependencies task) /\ In (pid, p) (_projects self)
    /\ dict_get dep (tasks p) = Some r
    /\ status (heap self r) <> COMPLETED.

(** Some capability tag of the agent occurs in the lower-cased task
    description. *)
Definition capable (task : SubTask) (agent : Agent.BaseAgent) : bool :=
  existsb (fun cap =>
             Text.contains (Text.lower cap) (Text.lower (description task)))
          (Agent.capabilities agent).

End OrchWording.

(** ** A declarative reading of the pattern matcher *)

Module Matching.
Import Text Re.

(** Every character of [s] is in the class. *)
Fixpoint all_chars (cls : ascii -> bool) (s : string) : bool :=
  match s with
  | EmptyString => true
  | String c s' => cls c && all_chars cls s'
  end.

(** [run r st st']: the pattern [r] can take the matcher from the position
    [st] to the position [st'], whatever the order in which the
    backtracking matcher tries the possibilities. *)
Inductive run : regex -> mstate -> mstate -> Prop :=
| run_lit l st rest' :
    strip_prefix l (rest st) = Some rest' ->
    run (Lit l) st (mkMstate (cur st ++ l)%string rest' (group1 st))
| run_star cls st w rest' :
    all_chars cls w = true -> rest st = (w ++ rest')%string ->
    run (Star cls) st (mkMstate (cur st ++ w)%string rest' (group1 st))
| run_plus cls st c w rest' :
    cls c = true -> all_chars cls w = true ->
    rest st = String c (w ++ rest')%string ->
    run (Plus cls) st
        (mkMstate (cur st ++ String c w)%string rest' (group1 st))
| run_opt_skip cls st :
    run (Opt cls) st (mkMstate (cur st) (rest st) (group1 st))
| run_opt_take cls st c rest' :
    cls c = true -> rest st = String c rest' ->
    run (Opt cls) st (mkMstate (snoc (cur st) c) rest' (group1 st))
| run_seq r1 r2 st st1 st2 :
    run r1 st st1 -> run r2 st1 st2 -> run (Seq r1 r2) st st2
| run_group r1 st st1 :
    run r1 (mkMstate EmptyString (rest st) (group1 st)) st1 ->
    run (Group r1) st (mkMstate (cur st1) (rest st1) (Some (cur st1))).

(** The pattern has no capture group. *)
Fixpoint group_free (r : regex) : bool :=
  match r with
  | Seq r1 r2 => group_free r1 && group_free r2
  | Group _ => false
  | _ => true
  end.

(** Every match of the pattern consumes a character of the class [P]. *)
Inductive demands (P : ascii -> bool) : regex -> Prop :=
| demands_plus cls :
    (forall c, cls c = true -> P c = true) -> demands P (Plus cls)
| demands_seq_l r1 r2 : demands P r1 -> demands P (Seq r1 r2)
| demands_seq_r r1 r2 : demands P r2 -> demands P (Seq r1 r2)
| demands_group r1 : demands P r1 -> demands P (Group r1).

(** The text of a decimal number as [Agent.number] matches it: digits,
    then possibly a dot and further digits. *)
Definition decimal_text (g : string) : Prop :=
  exists d1 d2,
    d1 <> EmptyString /\ all_chars is_digit d1 = true
    /\ all_chars is_digit d2 = true
    /\ (g = (d1 ++ d2)%string \/ g = (d1 ++ String "." d2)%string).

End Matching.

(** ** Concrete scenarios used to exercise the model *)

Module Samples.
Import Consensus.

Definition vote (who : string) (ty : VoteType) (c : Q) (why : string)
    (concerns : list string) : Vote :=
  mkVote who ty c why concerns 0%Z.

(** Two full approvals and one request for changes. *)
Definition review_ok : ConsensusBuilder :=
  add_votes (init "change-1" "Review: change-1" 2 true)
    [ vote "backend_agent" APPROVE 1 "Looks good" [];
      vote "frontend_agent" APPROVE 1 "LGTM" [];
      vote "testing_agent" REQUEST_CHANGES (1 # 2) "Needs tests"
           ["add unit tests"] ].

Definition security_reject : Vote :=
  vote "security_agent" REJECT (95 # 100) "SQL injection risk"
       ["unsafe query"].

Definition late_approvals : list Vote :=
  [ vote "backend_agent" APPROVE 1 "Looks good" [];
    vote "frontend_agent" APPROVE 1 "LGTM" [];
    vote "database_agent" APPROVE 1 "Fine" [] ].

(** A review that the security agent vetoes after one approval. *)
Definition review_vetoed : ConsensusBuilder :=
  add_votes (init "change-2" "Review: change-2" 2 true)
    [ vote "backend_agent" APPROVE (9 # 10) "Looks good" [];
      security_reject ].

(** A second vote under a name that has voted already. *)
Definition duplicate_reject : Vote :=
  vote "security_agent" REJECT 1 "Changed my mind" ["other issue"].

Definition one_security_approval : list Vote :=
  [ vote "security_agent" APPROVE (9 # 10) "Looks good" [] ].

(** A request whose correlation id is the empty string. *)
Definition blank_correlation : Messages.AgentMessage :=
  Messages.mkAgentMessage "backend_agent" "frontend_agent"
    Messages.REQUEST (Messages.CText "Help needed") 1 0%Z Messages.NORMAL
    (Some EmptyString) None "a1b2c3d4".

(** A request that starts a thread, and one inside a thread. *)
Definition first_request : Messages.AgentMessage :=
  Messages.mkAgentMessage "backend_agent" "frontend_agent"
    Messages.REQUEST (Messages.CText "Help needed") 1 0%Z Messages.NORMAL
    None None "a1b2c3d4".

Definition threaded_request : Messages.AgentMessage :=
  Messages.mkAgentMessage "backend_agent" "frontend_agent"
    Messages.REQUEST (Messages.CText "Help needed") 1 0%Z Messages.NORMAL
    (Some "thread-7") None "a1b2c3d4".

(** The two agents of the selection example, registered in this order. *)
Definition research : Agent.BaseAgent :=
  Agent.init "research" "Research specialist"
    ["searching documentation"] "gpt-4o" (7 # 10).

Definition backend : Agent.BaseAgent :=
  Agent.init "backend" "Backend developer" ["api design"] "gpt-4o"
    (7 # 10).

Definition task (id description : string) (deps : list string)
    (st : Orch.TaskStatus) : Orch.SubTask :=
  Orch.mkSubTask id None description None st deps None 0%Z None.

(** The task of the selection example. *)
Definition api_task : Orch.SubTask :=
  task "T" "Design an api for users" [] Orch.PENDING.

(** Object 0 is task A, object 1 is task B, which depends on A; every
    other address holds the task of the selection example. *)
Definition objects (a_status : Orch.TaskStatus) : Orch.store :=
  fun r =>
    match r with
    | 0 => task "A" "Set up the database schema" [] a_status
    | 1 => task "B" "Searching documentation for the api" ["A"]
                Orch.PENDING
    | _ => api_task
    end.

(** Exactly the two agents, research registered first. *)
Definition registry (a_status : Orch.TaskStatus) : Orch.Orchestrator :=
  Orch.register_agent
    (Orch.register_agent (Orch.init (objects a_status)) research)
    backend.

(** Project P1 holds A and B; both agents are registered. *)
Definition workspace (a_status : Orch.TaskStatus) : Orch.Orchestrator :=
  Orch.add_to_project
    (fst (Orch.create_project (registry a_status) "P1" "Demo"
            "A demo project"))
    "P1" [0; 1].

End Samples.

(** * Further parts of the coordination layer *)

(** ** Python list and string slices *)

Module Py.

(** [l[start:]] for an [int] start: a negative start counts from the end,
    and both ends are clamped to the list. *)
Definition slice_from {A} (start : Z) (l : list A) : list A :=
  let n := Z.of_nat (List.length l) in
  let i := if (start <? 0)%Z then Z.max 0 (n + start) else Z.min start n in
  skipn (Z.to_nat i) l.

(** [l[-n:]]; for [n = 0] this is [l[0:]], the whole list. *)
Definition last_n {A} (n : Z) (l : list A) : list A := slice_from (- n) l.

(** [s[:n]] for a literal [n]. *)
Definition str_take (n : nat) (s : string) : string := substring 0 n s.

(** [l.insert(-1, x)]: before the last element, at the front of an empty
    list. *)
Fixpoint insert_before_last {A} (x : A) (l : list A) : list A :=
  match l with
  | [] => [x]
  | [y] => [x; y]
  | y :: l' => y :: insert_before_last x l'
  end.

(** [s.split(sep)] for the one-character separator [sep]. *)
Fixpoint split_on (sep : ascii) (s : string) : list string :=
  match s with
  | EmptyString => [EmptyString]
  | String c s' =>
      if Ascii.eqb c sep then EmptyString :: split_on sep s'
      else
        match split_on sep s' with
        | [] => [String c EmptyString]
        | first :: others => String c first :: others
        end
  end.

(** [s.lstrip()] *)
Fixpoint lstrip (s : string) : string :=
  match s with
  | String c s' => if Text.is_space c then lstrip s' else s
  | EmptyString => EmptyString
  end.

(** [s.rstrip()] *)
Fixpoint rstrip (s : string) : string :=
  match s with
  | String c s' =>
      match rstrip s' with
      | EmptyString => if Text.is_space c then EmptyString
                       else String c EmptyString
      | kept => String c kept
      end
  | EmptyString => EmptyString
  end.

(** [s.strip()] *)
Definition strip (s : string) : string := rstrip (lstrip s).

End Py.

(** ** The value objects of core/base_agent.py *)

Module AgentTypes.

Record Thought := mkThought {
  content : string;
  confidence : Q;
  reasoning_steps : list string;
  requires_research : bool;
  requires_escalation : bool
}.

Record Insight := mkInsight {
  lesson : string;
  should_update_knowledge : bool;
  pattern_identified : option string;
  improvement_suggestion : option string
}.

End AgentTypes.

(** ** core/memory.py *)

Module Memory.
Import Text Py.

(** What a memory entry holds ([content: Any]): the thought or insight it
    records, or the text of an entry read back from disk. *)
Inductive EntryContent :=
| OfThought (t : AgentTypes.Thought)
| OfInsight (i : AgentTypes.Insight)
| OfText (s : string).

Record MemoryEntry := mkMemoryEntry {
  content : EntryContent;
  entry_type : string;
  timestamp : Z;
  importance : Q;
  tags : list string
}.

(** A conversation message, the dictionary with the keys role and
    content. *)
Record ChatMessage := mkChatMessage {
  role : string;
  text : string
}.

Record AgentMemory := mkAgentMemory {
  agent_name : string;
  max_short_term : Z;
  _messages : list ChatMessage;
  _thoughts : list AgentTypes.Thought;
  _insights : list AgentTypes.Insight;
  _entries : list MemoryEntry
}.

(** [AgentMemory.__init__] *)
Definition init (agent_name : string) (max_short_term : Z) : AgentMemory :=
  mkAgentMemory agent_name max_short_term [] [] [] [].

Definition with_messages (self : AgentMemory) (ms : list ChatMessage)
  : AgentMemory :=
  mkAgentMemory (agent_name self) (max_short_term self) ms
    (_thoughts self) (_insights self) (_entries self).

(** [AgentMemory.add_message] *)
Definition add_message (self : AgentMemory) (role content : string)
  : AgentMemory :=
  let appended := _messages self ++ [mkChatMessage role content] in
  if (max_short_term self <? Z.of_nat (List.length appended))%Z
  then with_messages self (last_n (max_short_term self) appended)
  else with_messages self appended.

(** [AgentMemory.get_recent_messages] *)
Definition get_recent_messages (self : AgentMemory) (limit : Z)
  : list ChatMessage :=
  last_n limit (_messages self).

(** [AgentMemory.add_thought]; [now] is the timestamp the new entry
    takes. *)
Definition add_thought (self : AgentMemory) (thought : AgentTypes.Thought)
    (now : Z) : AgentMemory :=
  mkAgentMemory (agent_name self) (max_short_term self) (_messages self)
    (_thoughts self ++ [thought]) (_insights self)
    (_entries self
       ++ [mkMemoryEntry (OfThought thought) "thought" now
             (AgentTypes.confidence thought) []]).

(** [AgentMemory.add_insight] *)
Definition add_insight (self : AgentMemory) (insight : AgentTypes.Insight)
    (now : Z) : AgentMemory :=
  mkAgentMemory (agent_name self) (max_short_term self) (_messages self)
    (_thoughts self) (_insights self ++ [insight])
    (_entries self
       ++ [mkMemoryEntry (OfInsight insight) "insight" now
             (if AgentTypes.should_update_knowledge insight
              then 1%Q else (1 # 2)%Q) []]).

(** [AgentMemory.clear_short_term] *)
Definition clear_short_term (self : AgentMemory) : AgentMemory :=
  with_messages self [].

Section Search.
(** [str(entry.content)], the text Python renders for a stored object. *)
Variable render : EntryContent -> string.
Variable query : string.
Variable wanted : option string.
Variable limit : Z.

(** The loop of [AgentMemory.search] over the entries still to visit. *)
Fixpoint search_loop (todo results : list MemoryEntry)
  : list MemoryEntry :=
  match todo with
  | [] => results
  | entry :: todo' =>
      if match wanted with
         | Some ty => truthy ty && negb (String.eqb (entry_type entry) ty)
         | None => false
         end
      then search_loop todo' results
      else if contains (lower query) (lower (render (content entry)))
      then
        let results' := results ++ [entry] in
        if (limit <=? Z.of_nat (List.length results'))%Z then results'
        else search_loop todo' results'
      else search_loop todo' results
  end.

(** [AgentMemory.search] *)
Definition search (self : AgentMemory) : list MemoryEntry :=
  search_loop (rev (_entries self)) [].
End Search.

End Memory.

(** ** The fragment of [re] with line anchors used by [_extract_steps] *)

Module Lines.
Import Text.

(** Patterns with the MULTILINE anchors, single characters of a class,
    greedy [+] and [*] on a class, alternation, concatenation and one
    capture group. *)
Inductive regex :=
| Bol
| Eol
| Cls (cls : ascii -> bool)
| Plus (cls : ascii -> bool)
| Star (cls : ascii -> bool)
| Alt (r1 r2 : regex)
| Seq (r1 r2 : regex)
| Group (r : regex).

(** A position of the matcher: the character before it, the number of
    characters read since the attempt started, the text read since the
    group was opened, the unread input and the capture. *)
Record lstate := mkLstate {
  prev : option ascii;
  taken : nat;
  cur : string;
  rest : string;
  group1 : option string
}.

Definition newline : ascii := ascii_of_nat 10.

Definition is_newline (c : ascii) : bool := Ascii.eqb c newline.

(** [^] under MULTILINE: at the start of the text or after a newline. *)
Definition at_bol (st : lstate) : bool :=
  match prev st with
  | None => true
  | Some c => is_newline c
  end.

(** [$] under MULTILINE: at the end of the text or before a newline. *)
Definition at_eol (st : lstate) : bool :=
  match rest st with
  | EmptyString => true
  | String c _ => is_newline c
  end.

(** The position after reading [c]. *)
Definition step (st : lstate) (c : ascii) (rest' : string) : lstate :=
  mkLstate (Some c) (S (taken st)) (Re.snoc (cur st) c) rest' (group1 st).

Section Loop.
Variable cls : ascii -> bool.
Variable k : lstate -> option lstate.

(** Greedy [cls*] from [st], whose unread input is [input]. *)
Fixpoint m_star (input : string) (st : lstate) : option lstate :=
  match input with
  | String c input' =>
      if cls c then
        match m_star input' (step st c input') with
        | Some m => Some m
        | None => k st
        end
      else k st
  | EmptyString => k st
  end.
End Loop.

(** Match [r] at [st], then the continuation; the first success in
    backtracking order is the result. *)
Fixpoint rmatch (r : regex) (st : lstate)
    (k : lstate -> option lstate) : option lstate :=
  match r with
  | Bol => if at_bol st then k st else None
  | Eol => if at_eol st then k st else None
  | Cls cls =>
      match rest st with
      | String c rest' => if cls c then k (step st c rest') else None
      | EmptyString => None
      end
  | Plus cls =>
      match rest st with
      | String c rest' =>
          if cls c then m_star cls k rest' (step st c rest') else None
      | EmptyString => None
      end
  | Star cls => m_star cls k (rest st) st
  | Alt r1 r2 =>
      match rmatch r1 st k with
      | Some m => Some m
      | None => rmatch r2 st k
      end
  | Seq r1 r2 => rmatch r1 st (fun st' => rmatch r2 st' k)
  | Group r1 =>
      rmatch r1
        (mkLstate (prev st) (taken st) EmptyString (rest st) (group1 st))
        (fun st' =>
           k (mkLstate (prev st') (taken st') (cur st') (rest st')
                (Some (cur st'))))
  end.

(** The text [findall] reports for a match of a pattern with one group. *)
Definition reported (m : lstate) : string :=
  match group1 m with Some g => g | None => EmptyString end.

(** [re.findall(r, text)] from the position before [s], whose previous
    character is [before]; the next [skip] characters belong to the match
    found last and start no attempt.  Matches are taken to read at least
    one character. *)
Fixpoint findall_from (r : regex) (before : option ascii) (skip : nat)
    (s : string) : list string :=
  match skip with
  | S skip' =>
      match s with
      | String c s' => findall_from r (Some c) skip' s'
      | EmptyString => []
      end
  | O =>
      match rmatch r (mkLstate before 0 EmptyString s None) Some with
      | Some m =>
          reported m
          :: match s with
             | String c s' => findall_from r (Some c) (pred (taken m)) s'
             | EmptyString => []
             end
      | None =>
          match s with
          | String c s' => findall_from r (Some c) 0 s'
          | EmptyString => []
          end
      end
  end.

Definition findall (r : regex) (text : string) : list string :=
  findall_from r None 0 text.

End Lines.

(** ** core/base_agent.py: what [think] and [reflect] do with the reply *)

Module Runtime.
Import Text Py AgentTypes.

Definition nl : string := String Lines.newline EmptyString.

Definition not_newline (c : ascii) : bool := negb (Lines.is_newline c).

Definition dash_or_star (c : ascii) : bool :=
  Agent.is_char "-" c || Agent.is_char "*" c.

(** The pattern of [_extract_steps]: start of line, [\s*], a number and a
    dot or one of the characters dash and star, [\s*], the group [.+],
    end of line. *)
Definition step_pattern : Lines.regex :=
  Lines.Seq Lines.Bol
    (Lines.Seq (Lines.Star is_space)
       (Lines.Seq
          (Lines.Alt
             (Lines.Seq (Lines.Plus is_digit) (Lines.Cls (Agent.is_char ".")))
             (Lines.Cls dash_or_star))
          (Lines.Seq (Lines.Star is_space)
             (Lines.Seq (Lines.Group (Lines.Plus not_newline)) Lines.Eol)))).

(** [BaseAgent._extract_steps] *)
Definition _extract_steps (content : string) : list string :=
  firstn 10 (Lines.findall step_pattern content).

(** [BaseAgent._extract_pattern] *)
Definition _extract_pattern (content : string) : option string :=
  if contains "pattern" (lower content) then
    match
      find (fun line => contains "pattern" (lower line))
           (split_on Lines.newline content)
    with
    | Some line => Some (strip line)
    | None => None
    end
  else None.

(** The [Thought] that [think] builds from the reply text; [None] stands
    for an exception of [_extract_confidence]. *)
Definition parse_thought (content : string) : option Thought :=
  match Agent._extract_confidence content with
  | Some c =>
      Some (mkThought content c (_extract_steps content)
              (contains "research" (lower content)
               && contains "need" (lower content))
              (contains "escalate" (lower content)))
  | None => None
  end.

(** The user message of [think]. *)
Definition user_text (prompt : string) : string :=
  ("Analyze this task and plan your approach:" ++ nl ++ nl
   ++ prompt ++ nl ++ nl
   ++ "Respond with:" ++ nl
   ++ "1. Your understanding of the task" ++ nl
   ++ "2. Step-by-step reasoning" ++ nl
   ++ "3. Confidence level (0.0-1.0)" ++ nl
   ++ "4. Whether you need more research" ++ nl
   ++ "5. Whether this should be escalated")%string.

(** The message list [think] sends: the system and user messages, with
    the recent conversation inserted by [messages.insert(-1, msg)]. *)
Definition think_messages (system_prompt prompt : string)
    (memory : Memory.AgentMemory) : list Memory.ChatMessage :=
  fold_left (fun messages msg => insert_before_last msg messages)
    (Memory.get_recent_messages memory 10)
    [ Memory.mkChatMessage "system" system_prompt;
      Memory.mkChatMessage "user" (user_text prompt) ].

(** The end of [think]: the thought is built from the reply, recorded in
    the memory and returned. *)
Definition think_finish (memory : Memory.AgentMemory) (content : string)
    (now : Z) : option (Memory.AgentMemory * Thought) :=
  match parse_thought content with
  | Some thought => Some (Memory.add_thought memory thought now, thought)
  | None => None
  end.

(** The [Insight] that [reflect] builds from the reply text for a result
    whose [success] flag is given. *)
Definition build_insight (success : bool) (content : string) : Insight :=
  mkInsight content
    (negb success || contains "pattern" (lower content))
    (_extract_pattern content) None.

(** The end of [reflect]. *)
Definition reflect_finish (memory : Memory.AgentMemory) (success : bool)
    (content : string) (now : Z) : Memory.AgentMemory * Insight :=
  let insight := build_insight success content in
  (Memory.add_insight memory insight now, insight).

(** [BaseAgent.send_message]; [now] and [new_id] are the generated
    timestamp and id. *)
Definition send_message (self : Agent.BaseAgent) (receiver : string)
    (content : Messages.Content) (message_type : Messages.MessageType)
    (confidence : Q) (now : Z) (new_id : string) : Messages.AgentMessage :=
  Messages.mkAgentMessage (Agent.name self) receiver message_type content
    confidence now Messages.NORMAL None None new_id.

End Runtime.

(** ** core/orchestrator.py: peer review and conflict resolution *)

Module Review.
Import Text Orch.

(** The first loop of [_select_reviewers]: the first registered agent
    other than the author whose role mentions security. *)
Definition security_reviewer (self : Orchestrator) (author : string)
  : list string :=
  match
    find (fun entry : string * Agent.BaseAgent =>
            negb (String.eqb (fst entry) author)
            && contains "security" (lower (Agent.role (snd entry))))
         (_agents self)
  with
  | Some (name, _) => [name]
  | None => []
  end.

(** The second loop of [_select_reviewers] over the names still to
    visit. *)
Fixpoint fill_reviewers (author : string) (count : Z)
    (names reviewers : list string) : list string :=
  match names with
  | [] => reviewers
  | name :: names' =>
      if negb (String.eqb name author)
         && negb (existsb (String.eqb name) reviewers)
      then
        let reviewers' := reviewers ++ [name] in
        if (count <=? Z.of_nat (List.length reviewers'))%Z then reviewers'
        else fill_reviewers author count names' reviewers'
      else fill_reviewers author count names' reviewers
  end.

(** [Orchestrator._select_reviewers] *)
Definition _select_reviewers (self : Orchestrator) (author : string)
    (count : Z) : list string :=
  fill_reviewers author count (map fst (_agents self))
    (security_reviewer self author).

(** The [# Send review requests] loop of [coordinate_review]; the message
    sent to the reviewer at index [i] takes the id [ids i] and the
    timestamp [clock i]. *)
Fixpoint send_reviews (self : Orchestrator)
    (request : Messages.ReviewRequest) (ids : nat -> string)
    (clock : nat -> Z) (i : nat) (reviewers : list string) : Orchestrator :=
  match reviewers with
  | [] => self
  | reviewer_name :: reviewers' =>
      let self' :=
        match dict_get reviewer_name (_agents self) with
        | Some agent =>
            let message :=
              Messages.mkAgentMessage "orchestrator" reviewer_name
                Messages.REVIEW (Messages.CReviewRequest request) 1%Q
                (clock i) Messages.NORMAL None None (ids i) in
            with_agents self
              (dict_set reviewer_name
                 (Agent.receive_message agent message) (_agents self))
        | None => self
        end in
      send_reviews self' request ids clock (S i) reviewers'
  end.

(** The reviewers [coordinate_review] works with: the given ones, or the
    selected ones when none (or an empty list) is given. *)
Definition effective_reviewers (self : Orchestrator) (author : string)
    (reviewers : option (list string)) : list string :=
  match reviewers with
  | Some (r :: rs) => r :: rs
  | _ => _select_reviewers self author 2
  end.

(** [Orchestrator.coordinate_review]; [change] is the text [str(change)]. *)
Definition coordinate_review (self : Orchestrator)
    (change_id change author : string) (reviewers : option (list string))
    (ids : nat -> string) (clock : nat -> Z)
  : Orchestrator * Consensus.ConsensusBuilder :=
  let reviewers := effective_reviewers self author reviewers in
  let review_request :=
    Messages.mkReviewRequest change_id "code" change EmptyString [] author
      (Z.of_nat (List.length reviewers)) in
  let consensus :=
    Consensus.init change_id ("Review: " ++ change_id)%string 2 true in
  (send_reviews self review_request ids clock 0 reviewers, consensus).

(** The vote [handle_conflict] casts for an agent from its thought. *)
Definition conflict_vote (agent_name : string)
    (thought : AgentTypes.Thought) (now : Z) : Consensus.Vote :=
  Consensus.mkVote agent_name
    (if Consensus.Qgt_bool (AgentTypes.confidence thought) (6 # 10)
     then Consensus.APPROVE else Consensus.REJECT)
    (AgentTypes.confidence thought)
    (Py.str_take 200 (AgentTypes.content thought)) [] now.

(** The voting loop of [handle_conflict]; [thinks name] is the thought
    that the agent [name] returns for the conflict prompt. *)
Fixpoint conflict_votes (self : Orchestrator)
    (thinks : string -> AgentTypes.Thought) (now : Z)
    (agents : list string) (consensus : Consensus.ConsensusBuilder)
  : Consensus.ConsensusBuilder :=
  match agents with
  | [] => consensus
  | agent_name :: agents' =>
      conflict_votes self thinks now agents'
        (if dict_mem agent_name (_agents self)
         then Consensus.add_vote consensus
                (conflict_vote agent_name (thinks agent_name) now)
         else consensus)
  end.

(** The decision [Orchestrator.handle_conflict] returns. *)
Definition handle_conflict (self : Orchestrator) (agents : list string)
    (topic : string) (thinks : string -> AgentTypes.Thought) (now : Z)
  : string :=
  Consensus.final_decision
    (Consensus.get_result
       (conflict_votes self thinks now agents
          (Consensus.init ("conflict_" ++ topic)%string topic
             (Z.of_nat (List.length agents)) true))).

End Review.

(** ** agents/research_agent.py: the override of [_extract_confidence] *)

Module Research.
Import Text Re.

(** The two patterns of [ResearchAgent._extract_confidence], the first two
    of the base agent's three. *)
Definition patterns : list regex :=
  [ Seq (Lit "confidence")
        (Seq (Plus Agent.colon_or_space) (Group Agent.number));
    Seq (Group Agent.number) (Seq (Star is_space) (Lit "%")) ].

(** The loop over the patterns; [None] stands for an exception. *)
Fixpoint scan (ps : list regex) (text : string) : option Q :=
  match ps with
  | [] => Some (6 # 10)%Q
  | pattern :: ps' =>
      match search pattern text with
      | Some m =>
          match group1 m with
          | Some g =>
              match Agent.float_of g with
              | Some value =>
                  Some (if Consensus.Qgt_bool value 1
                        then (value / 100)%Q else value)
              | None => None
              end
          | None => None
          end
      | None => scan ps' text
      end
  end.

(** [ResearchAgent._extract_confidence] *)
Definition _extract_confidence (content : string) : option Q :=
  scan patterns (lower content).

End Research.

(** ** Derived notions used to state further properties *)

Module Derived.
Import Text.

(** A vote that vetoes when the veto is allowed: a Reject from a voter
    whose lower-cased name contains the word security, with a concern. *)
Definition vetoing (v : Consensus.Vote) : bool :=
  Consensus.VoteType_eqb (Consensus.vote_type v) Consensus.REJECT
  && (contains "security" (lower (Consensus.voter v))
      && Consensus.nonempty (Consensus.concerns v)).

(** The arguments of one [create_reply] call, generated values included. *)
Record ReplyArgs := mkReplyArgs {
  who : string;
  what : Messages.Content;
  kind : Messages.MessageType;
  sure : Q;
  at_time : Z;
  fresh_id : string
}.

Definition reply_to (m : Messages.AgentMessage) (a : ReplyArgs)
  : Messages.AgentMessage :=
  Messages.create_reply m (who a) (what a) (kind a) (sure a) (at_time a)
    (fresh_id a).

(** The messages of a conversation in which each reply answers the
    message before it, starting from the replies to [m]. *)
Fixpoint thread (m : Messages.AgentMessage) (steps : list ReplyArgs)
  : list Messages.AgentMessage :=
  match steps with
  | [] => []
  | a :: steps' => reply_to m a :: thread (reply_to m a) steps'
  end.

(** A sequence of [add_message] calls, each with its role and content. *)
Definition add_messages (m : Memory.AgentMemory)
    (l : list Memory.ChatMessage) : Memory.AgentMemory :=
  fold_left (fun m c => Memory.add_message m (Memory.role c) (Memory.text c))
            l m.

(** The calls that change an agent memory. *)
Inductive MemoryCall :=
| AddMessage (role content : string)
| AddThought (t : AgentTypes.Thought) (now : Z)
| AddInsight (i : AgentTypes.Insight) (now : Z)
| ClearShortTerm.

Definition call (m : Memory.AgentMemory) (c : MemoryCall)
  : Memory.AgentMemory :=
  match c with
  | AddMessage r s => Memory.add_message m r s
  | AddThought t now => Memory.add_thought m t now
  | AddInsight i now => Memory.add_insight m i now
  | ClearShortTerm => Memory.clear_short_term m
  end.

Definition calls (m : Memory.AgentMemory) (cs : list MemoryCall)
  : Memory.AgentMemory :=
  fold_left call cs m.

(** An entry that [search] accepts: of the wanted type when a non-empty
    one is given, and with the lower-cased query in its lower-cased
    rendering. *)
Definition search_hit (render : Memory.EntryContent -> string)
    (query : string) (wanted : option string) (e : Memory.MemoryEntry)
  : bool :=
  negb match wanted with
       | Some ty => truthy ty && negb (String.eqb (Memory.entry_type e) ty)
       | None => false
       end
  && contains (lower query) (lower (render (Memory.content e))).

End Derived.

(** ** Further derived notions: invariants and the declarative reading of
    the line matcher *)

Module Invariants.
Import Text.

(** The veto flag records exactly whether a vetoing vote is on record
    while vetoes are allowed. *)
Definition veto_recorded (b : Consensus.ConsensusBuilder) : Prop :=
  Consensus._vetoed b = true <->
  Consensus.allow_veto b = true
  /\ exists v, In v (Consensus._votes b) /\ Derived.vetoing v = true.

(** Every entry of the log records a thought with its confidence as
    importance, or an insight with importance 1 or one half. *)
Definition entry_well_formed (e : Memory.MemoryEntry) : Prop :=
  match Memory.content e with
  | Memory.OfThought t =>
      Memory.entry_type e = "thought"
      /\ Memory.importance e = AgentTypes.confidence t
  | Memory.OfInsight i =>
      Memory.entry_type e = "insight"
      /\ Memory.importance e
         = (if AgentTypes.should_update_knowledge i
            then 1%Q else (1 # 2)%Q)
  | Memory.OfText _ => False
  end.

(** The characters that can open a step: a digit, a dash or a star. *)
Definition marker (c : ascii) : bool :=
  is_digit c || Runtime.dash_or_star c.

End Invariants.

Module LineMatching.
Import Text Lines.

(** [lrun r st st']: the pattern [r] can take the line matcher from the
    position [st] to the position [st']. *)
Inductive lrun : regex -> lstate -> lstate -> Prop :=
| lrun_bol st : at_bol st = true -> lrun Bol st st
| lrun_eol st : at_eol st = true -> lrun Eol st st
| lrun_cls cls st c rest' :
    rest st = String c rest' -> cls c = true ->
    lrun (Cls cls) st (step st c rest')
| lrun_star_stop cls st : lrun (Star cls) st st
| lrun_star_more cls st c rest' st' :
    rest st = String c rest' -> cls c = true ->
    lrun (Star cls) (step st c rest') st' -> lrun (Star cls) st st'
| lrun_plus cls st c rest' st' :
    rest st = String c rest' -> cls c = true ->
    lrun (Star cls) (step st c rest') st' -> lrun (Plus cls) st st'
| lrun_alt_l r1 r2 st st' : lrun r1 st st' -> lrun (Alt r1 r2) st st'
| lrun_alt_r r1 r2 st st' : lrun r2 st st' -> lrun (Alt r1 r2) st st'
| lrun_seq r1 r2 st st1 st2 :
    lrun r1 st st1 -> lrun r2 st1 st2 -> lrun (Seq r1 r2) st st2
| lrun_group r1 st st1 :
    lrun r1 (mkLstate (prev st) (taken st) EmptyString (rest st)
               (group1 st)) st1 ->
    lrun (Group r1) st
         (mkLstate (prev st1) (taken st1) (cur st1) (rest st1)
            (Some (cur st1))).

(** Every match of the pattern reads a character of the class [P]. *)
Inductive ldemands (P : ascii -> bool) : regex -> Prop :=
| ldemands_cls cls :
    (forall c, cls c = true -> P c = true) -> ldemands P (Cls cls)
| ldemands_plus cls :
    (forall c, cls c = true -> P c = true) -> ldemands P (Plus cls)
| ldemands_alt r1 r2 :
    ldemands P r1 -> ldemands P r2 -> ldemands P (Alt r1 r2)
| ldemands_seq_l r1 r2 : ldemands P r1 -> ldemands P (Seq r1 r2)
| ldemands_seq_r r1 r2 : ldemands P r2 -> ldemands P (Seq r1 r2)
| ldemands_group r1 : ldemands P r1 -> ldemands P (Group r1).

End LineMatching.

(** ** Further concrete scenarios *)

Module Scenarios.

Definition abstention : Consensus.Vote :=
  Samples.vote "docs_agent" Consensus.ABSTAIN 1 "No opinion" [].

Definition first_reply : Derived.ReplyArgs :=
  Derived.mkReplyArgs "frontend_agent" (Messages.CText "On it")
    Messages.RESPONSE 1 5%Z "e5f6a7b8".

Definition second_reply : Derived.ReplyArgs :=
  Derived.mkReplyArgs "backend_agent" (Messages.CText "Thanks")
    Messages.RESPONSE 1 9%Z "9c0d1e2f".

Definition five_messages : list Memory.ChatMessage :=
  [ Memory.mkChatMessage "user" "Message 0";
    Memory.mkChatMessage "user" "Message 1";
    Memory.mkChatMessage "user" "Message 2";
    Memory.mkChatMessage "user" "Message 3";
    Memory.mkChatMessage "user" "Message 4" ].

(** Both agents registered, and a task that names backend as its agent
    although its description matches a capability of research. *)
Definition preassigned : Orch.Orchestrator :=
  Orch.register_agent
    (Orch.register_agent
       (Orch.init
          (fun _ =>
             Orch.set_assigned_agent
               (Samples.task "S" "Searching documentation" [] Orch.PENDING)
               (Some "backend")))
       Samples.research)
    Samples.backend.

End Scenarios.

(** * Properties *)

(** ** Consensus and voting *)

Section ConsensusFacts.
Import Text Consensus Wording.

Lemma VoteType_eqb_eq (a b : VoteType) :
  VoteType_eqb a b = true <-> a = b.
Proof. destruct a, b; simpl; split; congruence. Qed.







(** *** How [add_vote] moves the builder *)

Lemma add_vote_duplicate (b : ConsensusBuilder) (v : Vote) :
  has_voted b (voter v) = true -> add_vote b v = b.
Proof. intros H. unfold add_vote. now rewrite H. Qed.

Lemma add_vote_fresh_votes (b : ConsensusBuilder) (v : Vote) :
  has_voted b (voter v) = false ->
  _votes (add_vote b v) = _votes b ++ [v].
Proof.
  intros H. unfold add_vote. rewrite H.
  now destruct (_ && _ && _).
Qed.

Lemma add_vote_keeps_veto (b : ConsensusBuilder) (v : Vote) :
  _vetoed b = true -> _vetoed (add_vote b v) = true.
Proof.
  intros H. unfold add_vote.
  destruct (has_voted b (voter v)); [exact H |].
  now destruct (_ && _ && _).
Qed.

Lemma add_votes_keeps_veto (vs : list Vote) (b : ConsensusBuilder) :
  _vetoed b = true -> _vetoed (add_votes b vs) = true.
Proof.
  revert b. induction vs as [| v vs IH]; intros b H; simpl; [exact H |].
  apply IH. now apply add_vote_keeps_veto.
Qed.

Lemma add_votes_cons (b : ConsensusBuilder) (v : Vote) (vs : list Vote) :
  add_votes b (v :: vs) = add_votes (add_vote b v) vs.
Proof. reflexivity. Qed.

Lemma nonempty_true {A} (l : list A) : l <> [] -> nonempty l = true.
Proof. destruct l; [congruence | reflexivity]. Qed.

Lemma get_result_vetoed (b : ConsensusBuilder) :
  _vetoed b = true ->
  get_result b
  = mkConsensusResult (decision_id b) false (_votes b)
      (or_else (_veto_reason b) "Vetoed")
      (map reasoning
         (filter (fun v => VoteType_eqb (vote_type v) REJECT
                           || VoteType_eqb (vote_type v) REQUEST_CHANGES)
                 (_votes b)))
      [].
Proof. intros H. unfold get_result. now rewrite H. Qed.

Lemma add_vote_veto_explained (b : ConsensusBuilder) (v : Vote) :
  veto_explained b -> veto_explained (add_vote b v).
Proof.
  intros Hb. unfold add_vote.
  destruct (has_voted b (voter v)); [exact Hb |].
  destruct (allow_veto b && VoteType_eqb (vote_type v) REJECT
            && (contains "security" (lower (voter v))
                && nonempty (concerns v))) eqn:E.
  - intros _. cbn [_votes _veto_reason].
    apply andb_true_iff in E. destruct E as [E1 E2].
    apply andb_true_iff in E1. destruct E1 as [_ Ety].
    apply andb_true_iff in E2. destruct E2 as [Esec Econ].
    apply VoteType_eqb_eq in Ety.
    destruct (concerns v) as [| c more] eqn:Ec; [discriminate |].
    exists v, c, more. repeat split; auto.
    apply in_or_app. right. now left.
  - intros Hv. cbn [_vetoed] in Hv. destruct (Hb Hv)
      as (w & c & more & Hin & Hty & Hsec & Hc & Hr).
    exists w, c, more. cbn [_votes _veto_reason]. repeat split; auto.
    apply in_or_app. now left.
Qed.

Lemma add_votes_veto_explained (vs : list Vote) (b : ConsensusBuilder) :
  veto_explained b -> veto_explained (add_votes b vs).
Proof.
  revert b. induction vs as [| v vs IH]; intros b H; simpl; [exact H |].
  apply IH. now apply add_vote_veto_explained.
Qed.

Lemma init_veto_explained id topic req veto :
  veto_explained (init id topic req veto).
Proof. intros H. discriminate H. Qed.

(** *** One vote per voter *)

Lemma has_voted_find (b : ConsensusBuilder) (name : string) :
  has_voted b name = true <-> find (by_voter name) (_votes b) <> None.
Proof.
  unfold has_voted, by_voter.
  induction (_votes b) as [| e l IH]; simpl.
  - split; congruence.
  - destruct (String.eqb (voter e) name); simpl; [| exact IH].
    split; congruence.
Qed.

Lemma find_app {A} (p : A -> bool) (l1 l2 : list A) :
  find p (l1 ++ l2)
  = match find p l1 with Some x => Some x | None => find p l2 end.
Proof.
  induction l1 as [| x l1 IH]; simpl; [reflexivity |].
  now destruct (p x).
Qed.

Lemma find_add_vote (b : ConsensusBuilder) (v : Vote) (name : string) :
  find (by_voter name) (_votes (add_vote b v))
  = find (by_voter name) (_votes b ++ [v]).
Proof.
  destruct (has_voted b (voter v)) eqn:E.
  - rewrite (add_vote_duplicate _ _ E), find_app. simpl.
    destruct (find (by_voter name) (_votes b)) eqn:F; [reflexivity |].
    unfold by_voter at 1.
    destruct (String.eqb (voter v) name) eqn:En; [| reflexivity].
    apply String.eqb_eq in En. subst name.
    apply has_voted_find in E. congruence.
  - now rewrite (add_vote_fresh_votes _ _ E).
Qed.

Lemma find_add_votes (vs : list Vote) (b : ConsensusBuilder)
    (name : string) :
  find (by_voter name) (_votes (add_votes b vs))
  = find (by_voter name) (_votes b ++ vs).
Proof.
  revert b. induction vs as [| v vs IH]; intros b.
  - simpl. now rewrite app_nil_r.
  - rewrite add_votes_cons, IH, !find_app, find_add_vote, find_app.
    simpl. now destruct (find (by_voter name) (_votes b)),
                        (by_voter name v).
Qed.

Lemma has_voted_false_notin (b : ConsensusBuilder) (name : string) :
  has_voted b name = false -> ~ In name (map voter (_votes b)).
Proof.
  unfold has_voted. intros H Hin. apply in_map_iff in Hin.
  destruct Hin as (e & He & Hin).
  assert (existsb (fun x => String.eqb (voter x) name) (_votes b) = true).
  { apply existsb_exists. exists e. split; [exact Hin |].
    now apply String.eqb_eq. }
  congruence.
Qed.

Lemma add_vote_distinct (b : ConsensusBuilder) (v : Vote) :
  distinct_voters b -> distinct_voters (add_vote b v).
Proof.
  intros Hb. destruct (has_voted b (voter v)) eqn:E.
  - now rewrite (add_vote_duplicate _ _ E).
  - unfold distinct_voters. rewrite (add_vote_fresh_votes _ _ E).
    rewrite map_app. simpl. apply NoDup_app; [exact Hb | |].
    + constructor; [intros [] | constructor].
    + intros a Ha [Hv | []]. subst a.
      exact (has_voted_false_notin _ _ E Ha).
Qed.

Lemma filter_by_absent_voter (l : list Vote) (name : string) :
  ~ In name (map voter l) -> filter (by_voter name) l = [].
Proof.
  induction l as [| e l IH]; simpl; intros H; [reflexivity |].
  unfold by_voter at 1. destruct (String.eqb (voter e) name) eqn:E.
  - apply String.eqb_eq in E. tauto.
  - apply IH. tauto.
Qed.

Lemma one_vote_per_voter (l : list Vote) (name : string) :
  NoDup (map voter l) -> In name (map voter l) ->
  List.length (filter (by_voter name) l) = 1.
Proof.
  induction l as [| e l IH]; simpl; intros Hnd Hin; [contradiction |].
  inversion Hnd as [| x xs Hx Hxs]; subst.
  unfold by_voter at 1. destruct (String.eqb (voter e) name) eqn:E.
  - apply String.eqb_eq in E. subst name.
    now rewrite (filter_by_absent_voter _ _ Hx).
  - apply IH; [exact Hxs |]. destruct Hin as [Heq | Hin]; [| exact Hin].
    apply String.eqb_neq in E. congruence.
Qed.

Lemma add_votes_distinct (vs : list Vote) (b : ConsensusBuilder) :
  distinct_voters b -> distinct_voters (add_votes b vs).
Proof.
  revert b. induction vs as [| v vs IH]; intros b H; simpl; [exact H |].
  apply IH. now apply add_vote_distinct.
Qed.

End ConsensusFacts.

Section ConsensusClaims.
Import Text Consensus Wording.



(** C2. With the veto enabled, once a Reject vote of a voter whose
    lower-cased name contains the word security and who gives at least one
    concern has been recorded, the builder is vetoed and [get_result]
    reports no approval after any further sequence of votes. *)
Theorem C2_security_veto_is_permanent (b : ConsensusBuilder) (v : Vote)
    (later : list Vote) :
  allow_veto b = true ->
  has_voted b (voter v) = false ->
  vote_type v = REJECT ->
  contains "security" (lower (voter v)) = true ->
  concerns v <> [] ->
  _vetoed (add_votes (add_vote b v) later) = true
  /\ approved (get_result (add_votes (add_vote b v) later)) = false.
Proof.
  intros Hallow Hfresh Hty Hsec Hcon.
  assert (Hv : _vetoed (add_vote b v) = true).
  { unfold add_vote. rewrite Hfresh, Hallow, Hty, Hsec.
    now rewrite (nonempty_true _ Hcon). }
  pose proof (add_votes_keeps_veto later _ Hv) as Hl.
  split; [exact Hl |]. now rewrite (get_result_vetoed _ Hl).
Qed.

Lemma C2_security_veto_is_permanent_witness :
  approved
    (get_result
       (add_votes
          (add_vote (init "change-3" "Review: change-3" 2 true)
                    Samples.security_reject)
          Samples.late_approvals)) = false.
Proof.
  apply (C2_security_veto_is_permanent
           (init "change-3" "Review: change-3" 2 true)
           Samples.security_reject Samples.late_approvals);
    try reflexivity.
  discriminate.
Defined.

(** C7, as stated, fails: in a vetoed review the first dissenting
    opinion is the reasoning text of a vote, not the veto reason. *)
Lemma C7_first_dissent_is_not_the_veto_reason :
  _vetoed Samples.review_vetoed = true
  /\ _veto_reason Samples.review_vetoed
     = Some "Security veto: unsafe query"
  /\ dissenting_opinions (get_result Samples.review_vetoed)
     = ["SQL injection risk"]
  /\ hd_error (dissenting_opinions (get_result Samples.review_vetoed))
     <> _veto_reason Samples.review_vetoed.
Proof. vm_compute. repeat split; discriminate. Qed.

(** C7, amended. Once votes cast on a fresh builder have vetoed it,
    [get_result] reports no approval, the final decision is the veto
    reason (the words Security veto and the first concern of a recorded
    security Reject vote), and the dissenting opinions are the reasoning
    texts of the Reject and RequestChanges votes in voting order, that
    vote's reasoning among them. *)
Theorem C7_veto_is_the_final_decision (id topic : string) (req : Z)
    (veto : bool) (vs : list Vote) :
  _vetoed (add_votes (init id topic req veto) vs) = true ->
  approved (get_result (add_votes (init id topic req veto) vs)) = false
  /\ dissenting_opinions
       (get_result (add_votes (init id topic req veto) vs))
     = map reasoning
         (filter (fun v => VoteType_eqb (vote_type v) REJECT
                           || VoteType_eqb (vote_type v) REQUEST_CHANGES)
                 (_votes (add_votes (init id topic req veto) vs)))
  /\ exists v c more,
       In v (_votes (add_votes (init id topic req veto) vs))
       /\ vote_type v = REJECT
       /\ contains "security" (lower (voter v)) = true
       /\ concerns v = c :: more
       /\ final_decision
            (get_result (add_votes (init id topic req veto) vs))
          = ("Security veto: " ++ c)%string
       /\ In (reasoning v)
            (dissenting_opinions
               (get_result (add_votes (init id topic req veto) vs))).
Proof.
  intros Hv. set (b := add_votes (init id topic req veto) vs) in *.
  rewrite (get_result_vetoed _ Hv).
  cbn [approved dissenting_opinions final_decision].
  split; [reflexivity |]. split; [reflexivity |].
  destruct (add_votes_veto_explained vs _
              (init_veto_explained id topic req veto) Hv)
    as (v & c & more & Hin & Hty & Hsec & Hc & Hr).
  fold b in Hin, Hr. exists v, c, more. repeat split; auto.
  - now rewrite Hr.
  - apply in_map. apply filter_In. split; [exact Hin |].
    now rewrite Hty.
Qed.

Lemma C7_veto_is_the_final_decision_witness :
  approved (get_result Samples.review_vetoed) = false.
Proof.
  apply (C7_veto_is_the_final_decision "change-2" "Review: change-2" 2
           true
           [ Samples.vote "backend_agent" APPROVE (9 # 10) "Looks good" [];
             Samples.security_reject ]).
  reflexivity.
Defined.

(** C8. On a builder grown from a fresh one by [add_vote] calls, a vote
    under a name that has a recorded vote already changes nothing:
    [add_vote] returns the builder as it was (so no veto is set), exactly
    one vote of that name is on record, and it is the first one that was
    cast under that name. *)
Theorem C8_duplicate_vote_is_ignored (id topic : string) (req : Z)
    (veto : bool) (vs : list Vote) (v : Vote) :
  (exists e, In e (_votes (add_votes (init id topic req veto) vs))
             /\ voter e = voter v) ->
  add_vote (add_votes (init id topic req veto) vs) v
  = add_votes (init id topic req veto) vs
  /\ _vetoed (add_vote (add_votes (init id topic req veto) vs) v)
     = _vetoed (add_votes (init id topic req veto) vs)
  /\ List.length
       (filter (by_voter (voter v))
          (_votes (add_vote (add_votes (init id topic req veto) vs) v)))
     = 1
  /\ find (by_voter (voter v))
       (_votes (add_vote (add_votes (init id topic req veto) vs) v))
     = find (by_voter (voter v)) vs.
Proof.
  intros (e & Hin & He). set (b := add_votes (init id topic req veto) vs).
  fold b in Hin.
  assert (Hdup : has_voted b (voter v) = true).
  { apply existsb_exists. exists e. split; [exact Hin |].
    now apply String.eqb_eq. }
  rewrite (add_vote_duplicate _ _ Hdup).
  split; [reflexivity |]. split; [reflexivity |]. split.
  - apply one_vote_per_voter.
    + apply (add_votes_distinct vs). constructor.
    + rewrite <- He. now apply in_map.
  - unfold b. now rewrite find_add_votes.
Qed.

Lemma C8_duplicate_vote_is_ignored_witness :
  add_vote
    (add_votes (init "change-4" "Review: change-4" 2 true)
               Samples.one_security_approval)
    Samples.duplicate_reject
  = add_votes (init "change-4" "Review: change-4" 2 true)
              Samples.one_security_approval.
Proof.
  apply (C8_duplicate_vote_is_ignored "change-4" "Review: change-4" 2 true
           Samples.one_security_approval Samples.duplicate_reject).
  exists (Samples.vote "security_agent" APPROVE (9 # 10) "Looks good" []).
  split; [vm_compute; tauto | reflexivity].
Defined.

End ConsensusClaims.

(** ** Message protocol *)

Section MessageClaims.
Import Text Messages.

(** C9, as stated, fails: a message whose correlation id is the empty
    string has one, yet its reply carries the message id instead. *)
Lemma C9_blank_correlation_is_replaced :
  correlation_id Samples.blank_correlation = Some EmptyString
  /\ correlation_id
       (create_reply Samples.blank_correlation "frontend_agent"
          (CText "On it") RESPONSE 1 5%Z "e5f6a7b8")
     = Some "a1b2c3d4"
  /\ correlation_id
       (create_reply Samples.blank_correlation "frontend_agent"
          (CText "On it") RESPONSE 1 5%Z "e5f6a7b8")
     <> correlation_id Samples.blank_correlation.
Proof. vm_compute. repeat split; discriminate. Qed.

(** C9, amended. The reply is addressed to the original sender, replies
    to the original message id, and carries the original correlation id
    when that is a non-empty string, the original message id when it is
    absent or empty. *)
Theorem C9_create_reply (m : AgentMessage) (who : string) (c : Content)
    (ty : MessageType) (conf : Q) (now : Z) (new_id : string) :
  receiver (create_reply m who c ty conf now new_id) = sender m
  /\ in_reply_to (create_reply m who c ty conf now new_id)
     = Some (message_id m)
  /\ (forall cid,
        correlation_id m = Some cid -> cid <> EmptyString ->
        correlation_id (create_reply m who c ty conf now new_id)
        = Some cid)
  /\ (correlation_id m = None \/ correlation_id m = Some EmptyString ->
      correlation_id (create_reply m who c ty conf now new_id)
      = Some (message_id m)).
Proof.
  unfold create_reply. cbn [receiver in_reply_to correlation_id].
  split; [reflexivity |]. split; [reflexivity |]. split.
  - intros cid Hc Hne. rewrite Hc. simpl.
    destruct cid; [congruence | reflexivity].
  - intros [H | H]; now rewrite H.
Qed.

Lemma C9_create_reply_witness :
  correlation_id
    (create_reply Samples.threaded_request "frontend_agent"
       (CText "On it") RESPONSE 1 5%Z "e5f6a7b8") = Some "thread-7"
  /\ correlation_id
       (create_reply Samples.first_request "frontend_agent"
          (CText "On it") RESPONSE 1 5%Z "e5f6a7b8") = Some "a1b2c3d4".
Proof.
  split.
  - apply (C9_create_reply Samples.threaded_request);
      [reflexivity | discriminate].
  - apply (C9_create_reply Samples.first_request). now left.
Defined.

End MessageClaims.

(** ** Orchestrator *)

Section OrchestratorFacts.
Import Text Orch OrchWording.

Lemma TaskStatus_eqb_eq (a b : TaskStatus) :
  TaskStatus_eqb a b = true <-> a = b.
Proof. destruct a, b; simpl; split; congruence. Qed.

Lemma dict_get_set_same {V} (k : string) (v : V) (d : dict V) :
  dict_get k (dict_set k v d) = Some v.
Proof.
  induction d as [| [k' v'] d IH]; simpl.
  - now rewrite String.eqb_refl.
  - destruct (String.eqb k' k) eqn:E; simpl; now rewrite E.
Qed.

Lemma dict_get_set_other {V} (k k' : string) (v : V) (d : dict V) :
  k' <> k -> dict_get k' (dict_set k v d) = dict_get k' d.
Proof.
  intros Hne. induction d as [| [k0 v0] d IH]; simpl.
  - apply String.eqb_neq in Hne. rewrite String.eqb_sym. now rewrite Hne.
  - destruct (String.eqb k0 k) eqn:E; simpl.
    + apply String.eqb_eq in E. subst k0.
      destruct (String.eqb k k') eqn:E'; [| reflexivity].
      apply String.eqb_eq in E'. congruence.
    + now rewrite IH.
Qed.

Lemma dict_set_keys {V} (k : string) (v : V) (d : dict V) :
  map fst (dict_set k v d)
  = if dict_mem k d then map fst d else map fst d ++ [k].
Proof.
  unfold dict_mem. induction d as [| [k' v'] d IH]; simpl; [reflexivity |].
  destruct (String.eqb k' k) eqn:E; simpl; [reflexivity |].
  rewrite IH. now destruct (dict_get k d).
Qed.

Lemma upd_same (h : store) (r : ref) (t : SubTask) : upd h r t r = t.
Proof. unfold upd. now rewrite Nat.eqb_refl. Qed.

Lemma upd_other (h : store) (r r' : ref) (t : SubTask) :
  r' <> r -> upd h r t r' = h r'.
Proof.
  intros H. unfold upd. apply Nat.eqb_neq in H. now rewrite H.
Qed.

Lemma dependencies_met_true (self : Orchestrator) (task : SubTask) :
  _dependencies_met self task = true <->
  (forall dep pid p r,
      In dep (dependencies task) -> In (pid, p) (_projects self) ->
      dict_get dep (tasks p) = Some r ->
      status (heap self r) = COMPLETED).
Proof.
  unfold _dependencies_met. rewrite forallb_forall. split.
  - intros H dep pid p r Hdep Hp Hget.
    specialize (H dep Hdep). rewrite forallb_forall in H.
    specialize (H (pid, p) Hp). simpl in H. rewrite Hget in H.
    now apply TaskStatus_eqb_eq.
  - intros H dep Hdep. apply forallb_forall. intros [pid p] Hp. simpl.
    destruct (dict_get dep (tasks p)) as [r |] eqn:Hget; [| reflexivity].
    apply TaskStatus_eqb_eq. exact (H dep pid p r Hdep Hp Hget).
Qed.

Lemma unmet_dependency_not_met (self : Orchestrator) (task : SubTask) :
  unmet_dependency self task -> _dependencies_met self task = false.
Proof.
  intros (dep & pid & p & r & Hdep & Hp & Hget & Hst).
  destruct (_dependencies_met self task) eqn:E; [| reflexivity].
  exfalso. apply Hst.
  exact (proj1 (dependencies_met_true self task) E dep pid p r Hdep Hp Hget).
Qed.

(** *** The agent-selection scan *)

Lemma select_agent_first_match (self : Orchestrator) (task : SubTask)
    (before after : dict Agent.BaseAgent) (name : string)
    (agent : Agent.BaseAgent) :
  _agents self = before ++ (name, agent) :: after ->
  (forall e, In e before -> capable task (snd e) = false) ->
  capable task agent = true ->
  _select_agent self task = name.
Proof.
  intros Hag Hbefore Hcap. unfold _select_agent. rewrite Hag.
  replace (find _ (before ++ (name, agent) :: after))
    with (Some (name, agent)); [reflexivity |].
  symmetry. clear Hag. induction before as [| e before IH]; simpl.
  - unfold capable in Hcap. now rewrite Hcap.
  - pose proof (Hbefore e (or_introl eq_refl)) as He.
    unfold capable in He. rewrite He. apply IH.
    intros e' He'. apply Hbefore. now right.
Qed.

Lemma select_agent_fallback (self : Orchestrator) (task : SubTask) :
  (forall e, In e (_agents self) -> capable task (snd e) = false) ->
  _select_agent self task = hd "unknown" (map fst (_agents self)).
Proof.
  intros Hnone. unfold _select_agent.
  replace (find _ (_agents self)) with (@None (string * Agent.BaseAgent)).
  - now destruct (_agents self) as [| [n a] l].
  - symmetry. induction (_agents self) as [| e l IH]; simpl; [reflexivity |].
    pose proof (Hnone e (or_introl eq_refl)) as He.
    unfold capable in He. rewrite He. apply IH.
    intros e' He'. apply Hnone. now right.
Qed.

(** Without a registered agent the selection is the word unknown, and
    [assign_task] on a task without an agent fails. *)
Lemma assign_task_without_agents (self : Orchestrator) (subtask : ref)
    (new_id : string) (now : Z) :
  _agents self = [] -> assigned_agent (heap self subtask) = None ->
  snd (assign_task self subtask new_id now) = false
  /\ status (heap (fst (assign_task self subtask new_id now)) subtask)
     = status (heap self subtask).
Proof.
  intros Hag Hnone. unfold assign_task. rewrite Hnone. simpl.
  unfold _select_agent. rewrite Hag. simpl.
  now rewrite upd_same.
Qed.

Lemma dict_get_map {V} (f : V -> V) (k : string) (d : dict V) :
  dict_get k (map (fun e => (fst e, f (snd e))) d)
  = option_map f (dict_get k d).
Proof.
  induction d as [| [k' v] d IH]; simpl; [reflexivity |].
  now destruct (String.eqb k' k).
Qed.

End OrchestratorFacts.

Section OrchestratorClaims.
Import Text Orch OrchWording.

(** C4. The dependency check answers yes exactly when every dependency id
    that some known project holds maps, in each project holding it, to a
    task whose status is Completed; in particular it answers yes when no
    project holds any of the dependency ids. *)
Theorem C4_dependencies_met (self : Orchestrator) (task : SubTask) :
  (_dependencies_met self task = true <->
   forall dep pid p r,
     In dep (dependencies task) -> In (pid, p) (_projects self) ->
     dict_get dep (tasks p) = Some r ->
     status (heap self r) = COMPLETED)
  /\ ((forall dep pid p,
         In dep (dependencies task) -> In (pid, p) (_projects self) ->
         dict_get dep (tasks p) = None) ->
      _dependencies_met self task = true).
Proof.
  split; [apply dependencies_met_true |].
  intros Hnone. apply dependencies_met_true.
  intros dep pid p r Hdep Hp Hget.
  rewrite (Hnone dep pid p Hdep Hp) in Hget. discriminate.
Qed.

(** C3, as stated, fails: [assign_task] called on task B, whose
    dependency A is still Pending, finds an agent and sets B to
    Assigned. *)
Lemma C3_assign_task_ignores_dependencies :
  dependencies (heap (Samples.workspace PENDING) 1) = ["A"]
  /\ option_map tasks (dict_get "P1" (_projects (Samples.workspace PENDING)))
     = Some [("A", 0); ("B", 1)]
  /\ status (heap (Samples.workspace PENDING) 0) = PENDING
  /\ _dependencies_met (Samples.workspace PENDING)
       (heap (Samples.workspace PENDING) 1) = false
  /\ snd (assign_task (Samples.workspace PENDING) 1 "0f3c9a1e" 7%Z) = true
  /\ status
       (heap (fst (assign_task (Samples.workspace PENDING) 1 "0f3c9a1e" 7%Z))
             1) = ASSIGNED
  /\ status
       (heap (fst (assign_task (Samples.workspace PENDING) 1 "0f3c9a1e" 7%Z))
             0) = PENDING.
Proof. vm_compute. repeat split. Qed.

(** C3, amended. The dependency gate is in [_process_task]: a polled task
    with a dependency that some project knows and that is not Completed
    becomes Blocked and is put back on the queue, its assigned agent, the
    other tasks and the agents (and so their inboxes) are left as they
    were.  [assign_task] itself checks no dependency: called on such a task
    it sets Assigned whenever it finds the agent. *)
Theorem C3_process_task_blocks (self : Orchestrator) (task : ref)
    (new_id : string) (now : Z) :
  unmet_dependency self (heap self task) ->
  status (heap (_process_task self task new_id now) task) = BLOCKED
  /\ assigned_agent (heap (_process_task self task new_id now) task)
     = assigned_agent (heap self task)
  /\ (forall r, r <> task ->
                heap (_process_task self task new_id now) r = heap self r)
  /\ _agents (_process_task self task new_id now) = _agents self
  /\ _task_queue (_process_task self task new_id now)
     = _task_queue self ++ [task]
  /\ (snd (assign_task self task new_id now) = true ->
      status (heap (fst (assign_task self task new_id now)) task)
      = ASSIGNED).
Proof.
  intros Hunmet. unfold _process_task.
  rewrite (unmet_dependency_not_met _ _ Hunmet). simpl.
  rewrite upd_same. simpl.
  split; [reflexivity |]. split; [reflexivity |]. split.
  { intros r Hr. now apply upd_other. }
  split; [reflexivity |]. split; [reflexivity |].
  unfold assign_task.
  destruct (assigned_agent
              (if negb (truthy_opt (assigned_agent (heap self task)))
               then set_assigned_agent (heap self task)
                      (Some (_select_agent self (heap self task)))
               else heap self task)) as [key |]; [| discriminate].
  destruct (dict_get key _) as [agent |]; [| discriminate].
  intros _. simpl. now rewrite upd_same.
Qed.

Lemma C3_process_task_blocks_witness :
  unmet_dependency (Samples.workspace PENDING)
    (heap (Samples.workspace PENDING) 1)
  /\ status
       (heap (_process_task (Samples.workspace PENDING) 1 "0f3c9a1e" 7%Z) 1)
     = BLOCKED.
Proof.
  assert (H : unmet_dependency (Samples.workspace PENDING)
                (heap (Samples.workspace PENDING) 1)).
  { exists "A", "P1",
      (mkProjectState "P1" "Demo" "A demo project" [("A", 0); ("B", 1)]
         [] []), 0.
    vm_compute. repeat split; try tauto. discriminate. }
  split; [exact H |].
  apply (C3_process_task_blocks (Samples.workspace PENDING) 1 "0f3c9a1e"
           7%Z H).
Defined.

(** C5, as stated, fails: creating project P1 again succeeds and puts an
    empty project in the place of the one that held tasks A and B. *)
Lemma C5_create_project_overwrites :
  option_map tasks (dict_get "P1" (_projects (Samples.workspace PENDING)))
  = Some [("A", 0); ("B", 1)]
  /\ snd (create_project (Samples.workspace PENDING) "P1" "Again" "Redo")
     = mkProjectState "P1" "Again" "Redo" [] [] []
  /\ dict_get "P1"
       (_projects
          (fst (create_project (Samples.workspace PENDING) "P1" "Again"
                  "Redo")))
     = Some (mkProjectState "P1" "Again" "Redo" [] [] []).
Proof. vm_compute. repeat split. Qed.

(** C5, amended. When a project with id P exists, [create_project] on P
    succeeds: it returns a new project without tasks, artifacts or
    metadata and stores it under P in place of the existing one, which is
    dropped with its task table; the other projects, the order of the
    project ids, the agents and the task objects stay as they were. *)
Theorem C5_create_project_replaces (self : Orchestrator)
    (pid name description : string) :
  dict_mem pid (_projects self) = true ->
  snd (create_project self pid name description)
  = mkProjectState pid name description [] [] []
  /\ dict_get pid (_projects (fst (create_project self pid name description)))
     = Some (mkProjectState pid name description [] [] [])
  /\ (forall other, other <> pid ->
        dict_get other
          (_projects (fst (create_project self pid name description)))
        = dict_get other (_projects self))
  /\ map fst (_projects (fst (create_project self pid name description)))
     = map fst (_projects self)
  /\ _agents (fst (create_project self pid name description))
     = _agents self
  /\ heap (fst (create_project self pid name description)) = heap self.
Proof.
  intros Hmem. unfold create_project. simpl.
  split; [reflexivity |]. split; [apply dict_get_set_same |]. split.
  { intros other Hne. now apply dict_get_set_other. }
  split; [| split; reflexivity].
  now rewrite dict_set_keys, Hmem.
Qed.

Lemma C5_create_project_replaces_witness :
  dict_mem "P1" (_projects (Samples.workspace PENDING)) = true
  /\ dict_get "P1"
       (_projects
          (fst (create_project (Samples.workspace PENDING) "P1" "Again"
                  "Redo")))
     = Some (mkProjectState "P1" "Again" "Redo" [] [] []).
Proof.
  split; [reflexivity |].
  apply (C5_create_project_replaces (Samples.workspace PENDING) "P1"
           "Again" "Redo").
  reflexivity.
Defined.

(** C6, as stated, fails: with research and backend registered in that
    order, the selection for the task described as Design an api for users
    is research, not backend. *)
Lemma C6_selection_is_not_backend :
  map fst (_agents (Samples.registry PENDING)) = ["research"; "backend"]
  /\ description Samples.api_task = "Design an api for users"
  /\ _select_agent (Samples.registry PENDING) Samples.api_task = "research"
  /\ _select_agent (Samples.registry PENDING) Samples.api_task <> "backend".
Proof. vm_compute. repeat split. discriminate. Qed.

(** C6, amended. With exactly research (capability searching
    documentation) and backend (capability api design) registered in that
    order, neither capability occurs in the lower-cased description
    Design an api for users, so the scan finds no agent and the selection
    falls back to the first registered agent, research; [assign_task] on
    that task assigns it to research. *)
Theorem C6_selection_example :
  map (fun e => (fst e, Agent.capabilities (snd e)))
      (_agents (Samples.registry PENDING))
  = [("research", ["searching documentation"]); ("backend", ["api design"])]
  /\ contains (lower "searching documentation")
       (lower (description Samples.api_task)) = false
  /\ contains (lower "api design")
       (lower (description Samples.api_task)) = false
  /\ _select_agent (Samples.registry PENDING) Samples.api_task = "research"
  /\ snd (assign_task (Samples.registry PENDING) 2 "0f3c9a1e" 7%Z) = true
  /\ assigned_agent
       (heap (fst (assign_task (Samples.registry PENDING) 2 "0f3c9a1e" 7%Z))
             2)
     = Some "research".
Proof. vm_compute. repeat split. Qed.

(** X1. Agent selection scans the agents in registration order and
    returns the name of the first one with a capability tag that occurs in
    the lower-cased description; when no agent has one it returns the
    first registered name, and the word unknown when no agent is
    registered. *)
Theorem X1_select_agent_scan (self : Orchestrator) (task : SubTask) :
  (forall before name agent after,
      _agents self = before ++ (name, agent) :: after ->
      (forall e, In e before -> capable task (snd e) = false) ->
      capable task agent = true ->
      _select_agent self task = name)
  /\ ((forall e, In e (_agents self) -> capable task (snd e) = false) ->
      _select_agent self task = hd "unknown" (map fst (_agents self))).
Proof.
  split.
  - intros before name agent after. apply select_agent_first_match.
  - apply select_agent_fallback.
Qed.

(** X2. Routing: a message addressed to broadcast is appended to the
    inbox of every registered agent; a message addressed to a registered
    name is appended to that agent's inbox only; a message addressed to an
    unknown name leaves the orchestrator as it was. *)
Theorem X2_route_message (self : Orchestrator)
    (message : Messages.AgentMessage) :
  (Messages.receiver message = "broadcast" ->
   forall name agent,
     dict_get name (_agents self) = Some agent ->
     dict_get name (_agents (_route_message self message))
     = Some (Agent.receive_message agent message))
  /\ (Messages.receiver message <> "broadcast" ->
      forall agent,
        dict_get (Messages.receiver message) (_agents self) = Some agent ->
        dict_get (Messages.receiver message)
                 (_agents (_route_message self message))
        = Some (Agent.receive_message agent message)
        /\ forall other,
             other <> Messages.receiver message ->
             dict_get other (_agents (_route_message self message))
             = dict_get other (_agents self))
  /\ (Messages.receiver message <> "broadcast" ->
      dict_get (Messages.receiver message) (_agents self) = None ->
      _route_message self message = self).
Proof.
  unfold _route_message. split; [| split].
  - intros Hb name agent Hget. rewrite Hb. simpl.
    rewrite (dict_get_map (fun a => Agent.receive_message a message)).
    now rewrite Hget.
  - intros Hnb agent Hget. apply String.eqb_neq in Hnb. rewrite Hnb, Hget.
    simpl. split; [apply dict_get_set_same |].
    intros other Hne. now apply dict_get_set_other.
  - intros Hnb Hget. apply String.eqb_neq in Hnb. now rewrite Hnb, Hget.
Qed.

End OrchestratorClaims.

(** ** Agent runtime: confidence extraction *)

Section AgentFacts.
Import Text Re Agent Matching.

Lemma append_nil_r (s : string) : (s ++ EmptyString)%string = s.
Proof. induction s as [| c s IH]; simpl; [reflexivity | now rewrite IH]. Qed.

Lemma append_assoc (a b c : string) :
  ((a ++ b) ++ c)%string = (a ++ (b ++ c))%string.
Proof. induction a as [| x a IH]; simpl; [reflexivity | now rewrite IH]. Qed.

Lemma all_chars_app (cls : ascii -> bool) (a b : string) :
  all_chars cls (a ++ b)%string = all_chars cls a && all_chars cls b.
Proof.
  induction a as [| c a IH]; simpl; [reflexivity |].
  now rewrite IH, andb_assoc.
Qed.

Lemma strip_prefix_app (l s s' : string) :
  strip_prefix l s = Some s' -> s = (l ++ s')%string.
Proof.
  revert s. induction l as [| a l IH]; intros s H; simpl in *.
  - congruence.
  - destruct s as [| b s]; [discriminate |].
    destruct (Ascii.eqb a b) eqn:E; [| discriminate].
    apply Ascii.eqb_eq in E. subst b. now rewrite (IH _ H).
Qed.

(** The greedy loop only ever hands the continuation a position reached by
    reading a run of characters of the class. *)
Lemma m_star_sound cls g k m (input : string) :
  forall consumed,
    m_star cls g k consumed input = Some m ->
    exists w rest',
      all_chars cls w = true /\ input = (w ++ rest')%string
      /\ k (mkMstate (consumed ++ w)%string rest' g) = Some m.
Proof.
  induction input as [| c input IH]; intros consumed H; simpl in H.
  - exists EmptyString, EmptyString. rewrite (append_nil_r consumed).
    split; [reflexivity | split; [reflexivity | exact H]].
  - destruct (cls c) eqn:Ec.
    + destruct (m_star cls g k (snoc consumed c) input) eqn:E.
      * inversion H; subst. destruct (IH _ E) as (w & rest' & Hw & Hi & Hk).
        exists (String c w), rest'. simpl. rewrite Ec, Hw, Hi.
        split; [reflexivity | split; [reflexivity |]].
        unfold snoc in Hk. now rewrite append_assoc in Hk.
      * exists EmptyString, (String c input). rewrite (append_nil_r consumed).
        split; [reflexivity | split; [reflexivity | exact H]].
    + exists EmptyString, (String c input). rewrite (append_nil_r consumed).
      split; [reflexivity | split; [reflexivity | exact H]].
Qed.

(** Whatever the backtracking matcher returns went through a position
    that the pattern allows. *)
Lemma rmatch_sound (r : regex) :
  forall st k m,
    rmatch r st k = Some m -> exists st', run r st st' /\ k st' = Some m.
Proof.
  induction r as [l | cls | cls | cls | r1 IH1 r2 IH2 | r1 IH1];
    intros st k m H; simpl in H.
  - destruct (strip_prefix l (rest st)) as [rest' |] eqn:E; [| discriminate].
    eexists. split; [apply run_lit; exact E | exact H].
  - unfold m_plus in H. destruct (rest st) as [| c input] eqn:Er;
      [discriminate |].
    destruct (cls c) eqn:Ec; [| discriminate].
    destruct (m_star_sound _ _ _ _ _ _ H) as (w & rest' & Hw & Hi & Hk).
    exists (mkMstate (cur st ++ String c w)%string rest' (group1 st)).
    split.
    + apply run_plus; auto. now rewrite Er, Hi.
    + unfold snoc in Hk. now rewrite append_assoc in Hk.
  - destruct (m_star_sound _ _ _ _ _ _ H) as (w & rest' & Hw & Hi & Hk).
    eexists. split; [apply run_star; eauto | exact Hk].
  - unfold m_opt in H.
    assert (Hskip : k (mkMstate (cur st) (rest st) (group1 st)) = Some m ->
                    exists st', run (Opt cls) st st' /\ k st' = Some m).
    { intros Hk. eexists. split; [apply run_opt_skip | exact Hk]. }
    destruct (rest st) as [| c input] eqn:Er; [now apply Hskip |].
    destruct (cls c) eqn:Ec; [| now apply Hskip].
    destruct (k (mkMstate (snoc (cur st) c) input (group1 st))) eqn:Ek.
    + inversion H; subst. eexists. split; [| exact Ek].
      now apply run_opt_take.
    + now apply Hskip.
  - destruct (IH1 _ _ _ H) as (st1 & Hr1 & Hk1).
    destruct (IH2 _ _ _ Hk1) as (st2 & Hr2 & Hk2).
    exists st2. split; [econstructor; eauto | exact Hk2].
  - destruct (IH1 _ _ _ H) as (st1 & Hr1 & Hk1).
    eexists. split; [apply run_group; exact Hr1 | exact Hk1].
Qed.

Lemma search_sound (r : regex) (s : string) (m : mstate) :
  search r s = Some m ->
  exists w s', s = (w ++ s')%string
               /\ run r (mkMstate EmptyString s' None) m.
Proof.
  induction s as [| c s IH]; simpl; intros H.
  - destruct (rmatch r (mkMstate EmptyString EmptyString None) Some) eqn:E;
      [| discriminate].
    inversion H; subst.
    destruct (rmatch_sound _ _ _ _ E) as (st' & Hrun & Hk).
    inversion Hk; subst. now exists EmptyString, EmptyString.
  - destruct (rmatch r (mkMstate EmptyString (String c s) None) Some) eqn:E.
    + inversion H; subst.
      destruct (rmatch_sound _ _ _ _ E) as (st' & Hrun & Hk).
      inversion Hk; subst. now exists EmptyString, (String c s).
    + destruct (IH H) as (w & s' & Hs & Hrun).
      exists (String c w), s'. simpl. now rewrite Hs.
Qed.

(** A match reads a prefix of the unread input. *)
Lemma run_rest r st st' :
  run r st st' -> exists w, rest st = (w ++ rest st')%string.
Proof.
  induction 1 as [l st rest' H | cls st w rest' Hw Hr
                 | cls st c w rest' Hc Hw Hr | cls st
                 | cls st c rest' Hc Hr | r1 r2 st st1 st2 _ IH1 _ IH2
                 | r1 st st1 _ IH]; simpl.
  - exists l. now apply strip_prefix_app.
  - now exists w.
  - now exists (String c w).
  - now exists EmptyString.
  - now exists (String c EmptyString).
  - destruct IH1 as [w1 H1]. destruct IH2 as [w2 H2].
    exists (w1 ++ w2)%string. now rewrite H1, H2, append_assoc.
  - exact IH.
Qed.

Lemma run_keeps_class r st st' (Q : ascii -> bool) :
  run r st st' -> all_chars Q (rest st) = true ->
  all_chars Q (rest st') = true.
Proof.
  intros Hrun HQ. destruct (run_rest _ _ _ Hrun) as [w Hw].
  rewrite Hw, all_chars_app in HQ. now apply andb_true_iff in HQ.
Qed.

(** A pattern that demands a character of [P] matches nowhere in a text
    that has none. *)
Lemma run_demands (P : ascii -> bool) r st st' :
  run r st st' -> demands P r ->
  all_chars (fun c => negb (P c)) (rest st) = true -> False.
Proof.
  induction 1 as [l st rest' H | cls st w rest' Hw Hr
                 | cls st c w rest' Hc Hw Hr | cls st
                 | cls st c rest' Hc Hr | r1 r2 st st1 st2 H1 IH1 H2 IH2
                 | r1 st st1 H1 IH]; intros Hd Hfree; inversion Hd; subst.
  - rewrite Hr in Hfree. simpl in Hfree.
    match goal with Hcls : forall c, cls c = true -> _ |- _ =>
      rewrite (Hcls c Hc) in Hfree end.
    discriminate.
  - now apply IH1.
  - apply IH2; [assumption |]. exact (run_keeps_class _ _ _ _ H1 Hfree).
  - now apply IH.
Qed.

Lemma run_group_free r st st' :
  run r st st' -> group_free r = true -> group1 st' = group1 st.
Proof.
  induction 1; simpl; intros Hg; try reflexivity; try discriminate.
  apply andb_true_iff in Hg. destruct Hg as [Hg1 Hg2].
  now rewrite IHrun2, IHrun1.
Qed.

(** What a match of [number] adds to the text read so far. *)
Lemma run_number st st' :
  run number st st' ->
  exists g, decimal_text g /\ cur st' = (cur st ++ g)%string.
Proof.
  unfold number. intros H.
  inversion H as [| | | | | r1 r2 s0 st1 s2 Hplus Htail |]; subst.
  inversion Htail as [| | | | | r1 r2 s0 st2 s2 Hopt Hstar |]; subst.
  inversion Hplus as [| | cls s0 c w rest1 Hc Hw Hr | | | |]; subst.
  inversion Hstar as [| cls s0 w2 rest2 Hw2 Hr2 | | | | |]; subst.
  inversion Hopt as [| | | cls s0 | cls s0 c' rest' Hc' Hr' | |]; subst;
    simpl in *.
  - exists (String c w ++ w2)%string. split.
    + exists (String c w), w2. simpl. rewrite Hc, Hw.
      repeat split; auto. discriminate.
    + now rewrite append_assoc.
  - exists (String c w ++ String c' w2)%string. split.
    + exists (String c w), w2. simpl. rewrite Hc, Hw.
      unfold is_char in Hc'. apply Ascii.eqb_eq in Hc'. subst c'.
      repeat split; auto. discriminate.
    + unfold snoc. now rewrite !append_assoc.
Qed.

(** In a match of any of the three patterns the capture is set and holds
    the text of a decimal number. *)
Lemma patterns_capture (p : regex) (s : string) (m : mstate) :
  In p patterns -> run p (mkMstate EmptyString s None) m ->
  exists g, group1 m = Some g /\ decimal_text g.
Proof.
  intros Hin Hrun. unfold patterns in Hin. simpl in Hin.
  destruct Hin as [Hp | [Hp | [Hp | []]]]; subst p.
  - inversion Hrun as [| | | | | r1 r2 s0 st1 s2 _ Htail |]; subst.
    inversion Htail as [| | | | | r1 r2 s0 st2 s2 _ Hgroup |]; subst.
    inversion Hgroup as [| | | | | | r1 s0 st3 Hnum]; subst.
    destruct (run_number _ _ Hnum) as (g & Hg & Hcur). simpl in Hcur.
    exists g. simpl. now rewrite Hcur.
  - inversion Hrun as [| | | | | r1 r2 s0 st1 s2 Hgroup Htail |]; subst.
    inversion Hgroup as [| | | | | | r1 s0 st3 Hnum]; subst.
    destruct (run_number _ _ Hnum) as (g & Hg & Hcur). simpl in Hcur.
    exists g. rewrite (run_group_free _ _ _ Htail eq_refl). simpl.
    now rewrite Hcur.
  - inversion Hrun as [| | | | | r1 r2 s0 st1 s2 Hgroup Htail |]; subst.
    inversion Hgroup as [| | | | | | r1 s0 st3 Hnum]; subst.
    destruct (run_number _ _ Hnum) as (g & Hg & Hcur). simpl in Hcur.
    exists g. rewrite (run_group_free _ _ _ Htail eq_refl). simpl.
    now rewrite Hcur.
Qed.

Lemma patterns_demand_digit (p : regex) :
  In p patterns -> demands is_digit p.
Proof.
  intros Hin. unfold patterns in Hin. simpl in Hin.
  assert (Hn : demands is_digit (Group number)).
  { apply demands_group. unfold number. apply demands_seq_l.
    apply demands_plus. auto. }
  destruct Hin as [Hp | [Hp | [Hp | []]]]; subst p.
  - apply demands_seq_r. now apply demands_seq_r.
  - now apply demands_seq_l.
  - now apply demands_seq_l.
Qed.

Lemma span_all (cls : ascii -> bool) (d : string) :
  all_chars cls d = true -> span cls d = (d, EmptyString).
Proof.
  induction d as [| c d IH]; simpl; intros H; [reflexivity |].
  apply andb_true_iff in H. destruct H as [Hc Hd].
  now rewrite Hc, (IH Hd).
Qed.

Lemma span_stop (cls : ascii -> bool) (d : string) (c : ascii)
    (s : string) :
  all_chars cls d = true -> cls c = false ->
  span cls (d ++ String c s)%string = (d, String c s).
Proof.
  intros Hd Hc. induction d as [| x d IH]; simpl in *.
  - now rewrite Hc.
  - apply andb_true_iff in Hd. destruct Hd as [Hx Hd].
    now rewrite Hx, (IH Hd).
Qed.

Lemma digits_val_nonneg (s : string) (acc : Z) :
  (0 <= acc)%Z -> (0 <= digits_val acc s)%Z.
Proof.
  revert acc. induction s as [| c s IH]; cbn [digits_val]; intros acc H;
    [exact H |].
  apply IH. lia.
Qed.

(** [float] accepts every capture and reads a number that is not
    negative. *)
Lemma float_of_decimal_text (g : string) :
  decimal_text g -> exists v, float_of g = Some v /\ (0 <= v)%Q.
Proof.
  intros (d1 & d2 & Hne & H1 & H2 & [Hg | Hg]); subst g; unfold float_of.
  - rewrite span_all by (now rewrite all_chars_app, H1, H2).
    destruct d1 as [| c d1]; [congruence |]. simpl.
    eexists. split; [reflexivity |].
    unfold Qle. simpl. rewrite Z.mul_1_r.
    apply digits_val_nonneg. lia.
  - rewrite (span_stop is_digit d1 "."%char d2 H1 eq_refl).
    destruct d1 as [| c d1]; [congruence |].
    change (is_char "." ".") with true. cbv iota.
    rewrite (span_all _ _ H2).
    eexists. split; [reflexivity |].
    unfold Qle. cbn [Qnum Qden]. rewrite Z.mul_1_r, Z.mul_0_l.
    apply digits_val_nonneg. lia.
Qed.

Lemma is_digit_lower_char (c : ascii) :
  is_digit (lower_char c) = is_digit c.
Proof. destruct c as [[] [] [] [] [] [] [] []]; reflexivity. Qed.

Lemma no_digit_lower (s : string) :
  all_chars (fun c => negb (is_digit c)) (lower s)
  = all_chars (fun c => negb (is_digit c)) s.
Proof.
  induction s as [| c s IH]; simpl; [reflexivity |].
  now rewrite is_digit_lower_char, IH.
Qed.

Lemma search_needs_digit (p : regex) (text : string) :
  In p patterns ->
  all_chars (fun c => negb (is_digit c)) text = true ->
  search p text = None.
Proof.
  intros Hin Hfree. destruct (search p text) as [m |] eqn:E; [| reflexivity].
  exfalso. destruct (search_sound _ _ _ E) as (w & s' & Hs & Hrun).
  apply (run_demands is_digit _ _ _ Hrun (patterns_demand_digit _ Hin)).
  simpl. rewrite Hs, all_chars_app in Hfree.
  now apply andb_true_iff in Hfree.
Qed.


(** The loop over the patterns never raises: it returns one half, or a
    number that is not negative, divided by 100 when it exceeds 1. *)
Lemma scan_result (text : string) (ps : list regex) :
  (forall p, In p ps -> In p patterns) ->
  exists v,
    scan ps text = Some v
    /\ (v = (1 # 2)%Q
        \/ exists value,
             (0 <= value)%Q
             /\ v = (if Consensus.Qgt_bool value 1
                     then (value / 100)%Q else value)).
Proof.
  induction ps as [| p ps IH]; intros Hsub; simpl.
  - exists (1 # 2)%Q. now split; [| left].
  - destruct (search p text) as [m |] eqn:E.
    + destruct (search_sound _ _ _ E) as (w & s' & _ & Hrun).
      destruct (patterns_capture p s' m (Hsub p (or_introl eq_refl)) Hrun)
        as (g & Hg & Htext).
      destruct (float_of_decimal_text g Htext) as (value & Hf & Hpos).
      rewrite Hg, Hf. eexists. split; [reflexivity |].
      right. now exists value.
    + apply IH. intros q Hq. apply Hsub. now right.
Qed.

Lemma extract_confidence_default (content : string) :
  (forall p, In p patterns -> search p (lower content) = None) ->
  _extract_confidence content = Some (1 # 2)%Q.
Proof.
  intros Hnone. unfold _extract_confidence.
  assert (H : forall ps, (forall p, In p ps -> In p patterns) ->
                         scan ps (lower content) = Some (1 # 2)%Q).
  { induction ps as [| p ps IH]; intros Hsub; simpl; [reflexivity |].
    rewrite (Hnone p (Hsub p (or_introl eq_refl))).
    apply IH. intros q Hq. apply Hsub. now right. }
  apply H. auto.
Qed.

Lemma extract_confidence_without_digit (content : string) :
  all_chars (fun c => negb (is_digit c)) content = true ->
  _extract_confidence content = Some (1 # 2)%Q.
Proof.
  intros Hfree. apply extract_confidence_default. intros p Hp.
  apply search_needs_digit; [exact Hp |]. now rewrite no_digit_lower.
Qed.

End AgentFacts.

Section AgentClaims.
Import Text Re Agent Matching.

(** C10. The confidence extracted from the text confidence: 500 is 5: a
    parsed number above 100 is divided by 100 and nothing bounds the
    quotient by 1. *)
Theorem C10_confidence_above_one :
  exists v,
    _extract_confidence "confidence: 500" = Some v
    /\ (v == 5)%Q /\ (1 < v)%Q.
Proof.
  exists (500 / 100)%Q. split; [vm_compute; reflexivity |].
  split; reflexivity.
Qed.


(** X4. When none of the three patterns matches the lower-cased text, and
    in particular when the text has no decimal digit, the extracted
    confidence is exactly one half. *)
Theorem X4_default_confidence (content : string) :
  (forall p, In p patterns -> search p (lower content) = None)
  \/ all_chars (fun c => negb (is_digit c)) content = true ->
  _extract_confidence content = Some (1 # 2)%Q.
Proof.
  intros [H | H].
  - now apply extract_confidence_default.
  - now apply extract_confidence_without_digit.
Qed.

Lemma X4_default_confidence_witness :
  _extract_confidence "I am not sure about this" = Some (1 # 2)%Q.
Proof.
  apply (X4_default_confidence "I am not sure about this").
  right. reflexivity.
Defined.

End AgentClaims.

(** * Further properties *)

Section MoreConsensus.
Import Text Consensus Wording Derived Invariants.

Lemma add_vote_allow_veto (b : ConsensusBuilder) (v : Vote) :
  allow_veto (add_vote b v) = allow_veto b.
Proof.
  unfold add_vote. destruct (has_voted b (voter v)); [reflexivity |].
  now destruct (_ && _ && _).
Qed.

Lemma add_vote_required (b : ConsensusBuilder) (v : Vote) :
  required_approvals (add_vote b v) = required_approvals b.
Proof.
  unfold add_vote. destruct (has_voted b (voter v)); [reflexivity |].
  now destruct (_ && _ && _).
Qed.

Lemma add_vote_fresh_vetoed (b : ConsensusBuilder) (v : Vote) :
  has_voted b (voter v) = false ->
  _vetoed (add_vote b v) = (allow_veto b && vetoing v) || _vetoed b.
Proof.
  intros H. unfold add_vote, vetoing. rewrite H.
  rewrite <- andb_assoc.
  destruct (allow_veto b && _); simpl; [reflexivity |].
  reflexivity.
Qed.

Lemma add_vote_veto_recorded (b : ConsensusBuilder) (v : Vote) :
  veto_recorded b -> veto_recorded (add_vote b v).
Proof.
  intros Hb. destruct (has_voted b (voter v)) eqn:E.
  - now rewrite (add_vote_duplicate _ _ E).
  - unfold veto_recorded.
    rewrite (add_vote_fresh_vetoed _ _ E), add_vote_allow_veto,
      (add_vote_fresh_votes _ _ E).
    split.
    + intros H. apply orb_true_iff in H. destruct H as [H | H].
      * apply andb_true_iff in H. destruct H as [Ha Hv].
        split; [exact Ha |]. exists v. split; [| exact Hv].
        apply in_or_app. right. now left.
      * destruct (proj1 Hb H) as [Ha (w & Hin & Hw)].
        split; [exact Ha |]. exists w. split; [| exact Hw].
        apply in_or_app. now left.
    + intros [Ha (w & Hin & Hw)]. apply orb_true_iff.
      apply in_app_or in Hin. destruct Hin as [Hin | [Heq | []]].
      * right. apply Hb. split; [exact Ha |]. now exists w.
      * subst w. left. now rewrite Ha, Hw.
Qed.

Lemma add_votes_veto_recorded (vs : list Vote) (b : ConsensusBuilder) :
  veto_recorded b -> veto_recorded (add_votes b vs).
Proof.
  revert b. induction vs as [| v vs IH]; intros b H; simpl; [exact H |].
  apply IH. now apply add_vote_veto_recorded.
Qed.

Lemma add_votes_allow_veto (vs : list Vote) (b : ConsensusBuilder) :
  allow_veto (add_votes b vs) = allow_veto b.
Proof.
  revert b. induction vs as [| v vs IH]; intros b; simpl; [reflexivity |].
  now rewrite IH, add_vote_allow_veto.
Qed.

(** X5. Votes cast on a fresh builder veto it exactly when vetoes are
    allowed and some recorded vote is a Reject of a voter whose lower-cased
    name contains the word security and who gives at least one concern. *)
Theorem X5_veto_only_from_security_reject (id topic : string) (req : Z)
    (veto : bool) (vs : list Vote) :
  _vetoed (add_votes (init id topic req veto) vs) = true <->
  veto = true
  /\ exists v,
       In v (_votes (add_votes (init id topic req veto) vs))
       /\ vote_type v = REJECT
       /\ contains "security" (lower (voter v)) = true
       /\ concerns v <> [].
Proof.
  assert (H0 : veto_recorded (init id topic req veto)).
  { split; [discriminate |]. now intros [_ (v & [] & _)]. }
  pose proof (add_votes_veto_recorded vs _ H0) as H.
  unfold veto_recorded in H. rewrite add_votes_allow_veto in H.
  cbn [allow_veto init] in H. rewrite H. clear H H0.
  split; intros [Hv (v & Hin & Hrest)]; (split; [exact Hv |]); exists v;
    (split; [exact Hin |]).
  - unfold vetoing in Hrest. apply andb_true_iff in Hrest.
    destruct Hrest as [Hty Hrest]. apply andb_true_iff in Hrest.
    destruct Hrest as [Hsec Hcon]. apply VoteType_eqb_eq in Hty.
    repeat split; auto. intros Hnil. now rewrite Hnil in Hcon.
  - destruct Hrest as (Hty & Hsec & Hcon). unfold vetoing.
    now rewrite Hty, Hsec, (nonempty_true _ Hcon).
Qed.

Lemma add_vote_length (b : ConsensusBuilder) (v : Vote) :
  List.length (_votes (add_vote b v))
  = if has_voted b (voter v) then List.length (_votes b)
    else S (List.length (_votes b)).
Proof.
  destruct (has_voted b (voter v)) eqn:E.
  - now rewrite (add_vote_duplicate _ _ E).
  - rewrite (add_vote_fresh_votes _ _ E), length_app. simpl. lia.
Qed.

(** X6. A builder is complete exactly when it is vetoed or no vote is
    pending.  A vote never raises the pending count and lowers it by at
    most one: by exactly one for a new voter while votes are pending, by
    nothing for a voter already on record.  A complete builder stays
    complete. *)
Theorem X6_votes_only_advance_completion (b : ConsensusBuilder) (v : Vote) :
  (is_complete b = true <-> _vetoed b = true \/ pending_count b = 0%Z)
  /\ (0 <= pending_count (add_vote b v) <= pending_count b)%Z
  /\ (pending_count b - 1 <= pending_count (add_vote b v))%Z
  /\ (has_voted b (voter v) = false -> (0 < pending_count b)%Z ->
      pending_count (add_vote b v) = (pending_count b - 1)%Z)
  /\ (has_voted b (voter v) = true ->
      pending_count (add_vote b v) = pending_count b)
  /\ (is_complete b = true -> is_complete (add_vote b v) = true).
Proof.
  split.
  { unfold is_complete, pending_count. destruct (_vetoed b).
    - split; auto.
    - rewrite Z.leb_le. split; [intros H; right; lia |].
      intros [H | H]; [discriminate | lia]. }
  unfold pending_count, is_complete.
  rewrite add_vote_required, add_vote_length.
  destruct (has_voted b (voter v)) eqn:E.
  - rewrite (add_vote_duplicate _ _ E).
    repeat split; try lia; try discriminate; auto.
  - repeat split; try lia; try discriminate.
    destruct (_vetoed b) eqn:Ev.
    + intros _. now rewrite (add_vote_keeps_veto _ _ Ev).
    + intros H. apply Z.leb_le in H.
      destruct (_vetoed (add_vote b v)); [reflexivity |].
      apply Z.leb_le. lia.
Qed.

Lemma weight_snoc_other (ty : VoteType) (vs : list Vote) (v : Vote) :
  VoteType_eqb (vote_type v) ty = false ->
  weight ty (vs ++ [v]) = weight ty vs.
Proof.
  intros H. unfold weight. rewrite filter_app. simpl. rewrite H.
  now rewrite app_nil_r.
Qed.

(** X7. An Abstain or RequestChanges vote changes neither the approved
    flag nor the final decision nor the veto flag of a builder. *)
Theorem X7_abstentions_do_not_decide (b : ConsensusBuilder) (v : Vote) :
  vote_type v = ABSTAIN \/ vote_type v = REQUEST_CHANGES ->
  approved (get_result (add_vote b v)) = approved (get_result b)
  /\ final_decision (get_result (add_vote b v))
     = final_decision (get_result b)
  /\ _vetoed (add_vote b v) = _vetoed b.
Proof.
  intros Hty. destruct (has_voted b (voter v)) eqn:E.
  - now rewrite (add_vote_duplicate _ _ E).
  - assert (Hnv : vetoing v = false).
    { unfold vetoing. now destruct Hty as [-> | ->]. }
    assert (Hveto : _vetoed (add_vote b v) = _vetoed b).
    { rewrite (add_vote_fresh_vetoed _ _ E), Hnv.
      now rewrite andb_false_r. }
    assert (Hreason : _veto_reason (add_vote b v) = _veto_reason b).
    { unfold add_vote. rewrite E.
      assert (Hc : allow_veto b && VoteType_eqb (vote_type v) REJECT
                   && (contains "security" (lower (voter v))
                       && nonempty (concerns v)) = false).
      { destruct Hty as [-> | ->]; simpl; now rewrite andb_false_r. }
      now rewrite Hc. }
    unfold get_result. rewrite Hveto, Hreason, add_vote_required,
      (add_vote_fresh_votes _ _ E).
    destruct (_vetoed b); cbn [approved final_decision].
    + repeat split.
    + rewrite !weight_snoc_other by (destruct Hty as [-> | ->]; reflexivity).
      repeat split.
Qed.

Lemma X7_abstentions_do_not_decide_witness :
  approved (get_result (add_vote Samples.review_ok Scenarios.abstention))
  = approved (get_result Samples.review_ok).
Proof.
  apply (X7_abstentions_do_not_decide Samples.review_ok
           Scenarios.abstention).
  left. reflexivity.
Defined.

End MoreConsensus.

Section MoreMessages.
Import Text Messages Derived.

Lemma or_else_truthy (a : option string) (b : string) :
  or_else a b <> EmptyString ->
  or_else (Some (or_else a b)) b = or_else a b.
Proof.
  intros H. simpl. destruct (or_else a b); [congruence | reflexivity].
Qed.

Lemma or_else_same_root (root other : string) :
  root <> EmptyString -> or_else (Some root) other = root.
Proof. intros H. simpl. destruct root; [congruence | reflexivity]. Qed.

(** X8. In a thread of replies, each answering the message before it,
    every reply carries the same correlation id: that of the first
    message, or its message id when it has none, provided this root id is
    not the empty string. *)
Theorem X8_thread_keeps_correlation (m : AgentMessage)
    (steps : list ReplyArgs) :
  or_else (correlation_id m) (message_id m) <> EmptyString ->
  forall r, In r (thread m steps) ->
            correlation_id r
            = Some (or_else (correlation_id m) (message_id m)).
Proof.
  revert m. induction steps as [| a steps IH]; intros m Hroot r Hin;
    simpl in Hin; [contradiction |].
  destruct Hin as [Hr | Hin].
  - subst r. reflexivity.
  - assert (Hsame : or_else (correlation_id (reply_to m a))
                      (message_id (reply_to m a))
                    = or_else (correlation_id m) (message_id m)).
    { unfold reply_to, create_reply. cbn [correlation_id message_id].
      now apply or_else_same_root. }
    rewrite <- Hsame. apply IH; [| exact Hin]. now rewrite Hsame.
Qed.

Lemma X8_thread_keeps_correlation_witness :
  correlation_id
    (reply_to (reply_to Samples.first_request Scenarios.first_reply)
              Scenarios.second_reply)
  = Some "a1b2c3d4".
Proof.
  apply (X8_thread_keeps_correlation Samples.first_request
           [Scenarios.first_reply; Scenarios.second_reply]).
  - discriminate.
  - right. left. reflexivity.
Defined.

End MoreMessages.

Section MoreMemory.
Import Text Py Memory Derived Invariants.

Lemma last_n_all {A} (n : Z) (l : list A) :
  (Z.of_nat (List.length l) <= n)%Z -> (0 < n)%Z -> last_n n l = l.
Proof.
  intros H Hn. unfold last_n, slice_from.
  destruct (- n <? 0)%Z eqn:E; [| apply Z.ltb_ge in E; lia].
  replace (Z.to_nat _) with 0 by lia. reflexivity.
Qed.

Lemma last_n_skip {A} (n : Z) (l : list A) :
  (0 < n)%Z ->
  last_n n l = skipn (List.length l - Z.to_nat n) l.
Proof.
  intros Hn. unfold last_n, slice_from.
  destruct (- n <? 0)%Z eqn:E; [| apply Z.ltb_ge in E; lia].
  f_equal. lia.
Qed.

Lemma last_n_length {A} (n : Z) (l : list A) :
  (0 < n)%Z ->
  List.length (last_n n l) = Nat.min (Z.to_nat n) (List.length l).
Proof. intros Hn. rewrite last_n_skip, length_skipn by exact Hn. lia. Qed.

Lemma last_n_zero {A} (l : list A) : last_n 0 l = l.
Proof.
  unfold last_n, slice_from. simpl. rewrite Z.min_l by lia. reflexivity.
Qed.

Lemma last_n_negative {A} (n : Z) (l : list A) :
  (n < 0)%Z -> last_n n l = skipn (Z.to_nat (- n)) l.
Proof.
  intros Hn. unfold last_n, slice_from.
  destruct (- n <? 0)%Z eqn:E; [apply Z.ltb_lt in E; lia |].
  destruct (Z.min_spec (- n) (Z.of_nat (List.length l))) as [[_ ->] | [H ->]].
  - reflexivity.
  - rewrite Nat2Z.id. rewrite !skipn_all2; [reflexivity | lia | lia].
Qed.

(** Trimming a trimmed buffer that has grown is trimming the whole
    history. *)
Lemma last_n_app {A} (n : Z) (l more : list A) :
  (0 < n)%Z -> last_n n (last_n n l ++ more) = last_n n (l ++ more).
Proof.
  intros Hn. rewrite !last_n_skip by exact Hn.
  rewrite !length_app, length_skipn.
  set (len := List.length l). set (k := Z.to_nat n).
  assert (Hk : 0 < k) by (unfold k; lia).
  destruct (Nat.le_gt_cases len k) as [Hle | Hgt].
  - replace (len - k) with 0 by lia. simpl.
    now replace (len - 0) with len by lia.
  - rewrite !skipn_app, skipn_skipn, length_skipn. fold len.
    f_equal; f_equal; lia.
Qed.

Lemma last_n_idem {A} (n : Z) (l : list A) :
  (0 < n)%Z -> last_n n (last_n n l) = last_n n l.
Proof.
  intros Hn. rewrite <- (app_nil_r (last_n n l)) at 1.
  now rewrite last_n_app, app_nil_r.
Qed.

Lemma add_message_messages (m : AgentMemory) (r c : string) :
  (0 < max_short_term m)%Z ->
  _messages (add_message m r c)
  = last_n (max_short_term m) (_messages m ++ [mkChatMessage r c]).
Proof.
  intros Hmax. unfold add_message.
  destruct (max_short_term m <? _)%Z eqn:E; cbn [_messages with_messages].
  - reflexivity.
  - apply Z.ltb_ge in E. symmetry. now apply last_n_all.
Qed.

Lemma add_message_max (m : AgentMemory) (r c : string) :
  max_short_term (add_message m r c) = max_short_term m.
Proof. unfold add_message. now destruct (_ <? _)%Z. Qed.

Lemma chat_eta (c : ChatMessage) : mkChatMessage (role c) (text c) = c.
Proof. now destruct c. Qed.

Lemma add_messages_buffer (l : list ChatMessage) (m : AgentMemory) :
  (0 < max_short_term m)%Z ->
  _messages m = last_n (max_short_term m) (_messages m) ->
  _messages (add_messages m l)
  = last_n (max_short_term m) (_messages m ++ l).
Proof.
  revert m. induction l as [| c l IH]; intros m Hmax Hinv; simpl.
  - now rewrite app_nil_r.
  - pose proof (add_message_messages m (role c) (text c) Hmax) as Hstep.
    rewrite chat_eta in Hstep.
    change (fold_left _ l (add_message m (role c) (text c)))
      with (add_messages (add_message m (role c) (text c)) l).
    rewrite IH.
    + rewrite add_message_max, Hstep, last_n_app by exact Hmax.
      now rewrite <- app_assoc.
    + now rewrite add_message_max.
    + rewrite add_message_max, Hstep. symmetry. now apply last_n_idem.
Qed.

(** X9. With a capacity of at least one, the conversation buffer of a
    new memory after any sequence of [add_message] calls holds the latest
    messages in order, at most capacity of them. *)
Theorem X9_message_buffer_keeps_the_latest (name : string) (cap : Z)
    (l : list ChatMessage) :
  (0 < cap)%Z ->
  _messages (add_messages (init name cap) l) = last_n cap l
  /\ (Z.of_nat (List.length (_messages (add_messages (init name cap) l)))
      <= cap)%Z
  /\ exists dropped,
       l = dropped ++ _messages (add_messages (init name cap) l).
Proof.
  intros Hcap.
  assert (H : _messages (add_messages (init name cap) l) = last_n cap l).
  { rewrite add_messages_buffer; [reflexivity | exact Hcap |].
    simpl. now rewrite last_n_all by (simpl; lia). }
  rewrite H. split; [reflexivity |]. split.
  - rewrite last_n_length by exact Hcap. lia.
  - rewrite last_n_skip by exact Hcap.
    exists (firstn (List.length l - Z.to_nat cap) l).
    now rewrite firstn_skipn.
Qed.

Lemma X9_message_buffer_keeps_the_latest_witness :
  _messages (add_messages (init "test" 3) Scenarios.five_messages)
  = last_n 3 Scenarios.five_messages.
Proof.
  apply (X9_message_buffer_keeps_the_latest "test" 3
           Scenarios.five_messages).
  reflexivity.
Defined.

Lemma add_messages_cons (m : AgentMemory) (c : ChatMessage)
    (l : list ChatMessage) :
  add_messages m (c :: l)
  = add_messages (add_message m (role c) (text c)) l.
Proof. reflexivity. Qed.

(** X10. A capacity of zero disables trimming: every message is kept,
    since the slice from index minus zero is the whole list.  With a
    negative capacity the buffer of a new memory stays empty. *)
Theorem X10_message_buffer_without_capacity (name : string) (cap : Z)
    (l : list ChatMessage) :
  (cap = 0%Z -> _messages (add_messages (init name cap) l) = l)
  /\ ((cap < 0)%Z -> _messages (add_messages (init name cap) l) = []).
Proof.
  split; intros Hcap.
  - subst cap.
    assert (H : forall m, max_short_term m = 0%Z ->
                  _messages (add_messages m l) = _messages m ++ l).
    { induction l as [| c l IH]; intros m Hm.
      - simpl. now rewrite app_nil_r.
      - rewrite add_messages_cons, IH by (now rewrite add_message_max).
        unfold add_message. rewrite Hm, length_app. simpl.
        destruct (0 <? _)%Z eqn:E; [| apply Z.ltb_ge in E; lia].
        cbn [_messages with_messages]. rewrite last_n_zero, chat_eta.
        now rewrite <- app_assoc. }
    now apply H.
  - assert (H : forall m, max_short_term m = cap -> _messages m = [] ->
                  _messages (add_messages m l) = []).
    { induction l as [| c l IH]; intros m Hm Hnil; [exact Hnil |].
      rewrite add_messages_cons. apply IH.
      - now rewrite add_message_max.
      - unfold add_message. rewrite Hm, Hnil. simpl.
        destruct (cap <? 1)%Z eqn:E; [| apply Z.ltb_ge in E; lia].
        cbn [_messages with_messages].
        rewrite last_n_negative by exact Hcap.
        apply skipn_all2. simpl. lia. }
    now apply H.
Qed.

(** X11. [get_recent_messages] returns the last min(limit, length)
    messages for a positive limit, every message for limit 0, and all but
    the first -limit messages for a negative limit. *)
Theorem X11_recent_messages (m : AgentMemory) (limit : Z) :
  ((0 < limit)%Z ->
   List.length (get_recent_messages m limit)
   = Nat.min (Z.to_nat limit) (List.length (_messages m))
   /\ exists older, _messages m = older ++ get_recent_messages m limit)
  /\ (limit = 0%Z -> get_recent_messages m limit = _messages m)
  /\ ((limit < 0)%Z ->
      get_recent_messages m limit
      = skipn (Z.to_nat (- limit)) (_messages m)).
Proof.
  unfold get_recent_messages. split; [| split].
  - intros Hl. split; [now apply last_n_length |].
    rewrite last_n_skip by exact Hl.
    exists (firstn (List.length (_messages m) - Z.to_nat limit)
                   (_messages m)).
    now rewrite firstn_skipn.
  - intros ->. apply last_n_zero.
  - apply last_n_negative.
Qed.

Lemma calls_snoc (m : AgentMemory) (cs : list MemoryCall) (c : MemoryCall) :
  calls m (cs ++ [c]) = call (calls m cs) c.
Proof. unfold calls. now rewrite fold_left_app. Qed.

(** X12. In a memory grown from a new one by [add_message],
    [add_thought], [add_insight] and [clear_short_term] calls, the log has
    one entry per recorded thought and insight; a thought entry has the
    thought's confidence as importance, an insight entry has importance 1
    or one half; name and capacity never change. *)
Theorem X12_memory_log_tracks_thoughts_and_insights (name : string)
    (cap : Z) (cs : list MemoryCall) :
  List.length (_entries (calls (init name cap) cs))
  = List.length (_thoughts (calls (init name cap) cs))
    + List.length (_insights (calls (init name cap) cs))
  /\ Forall entry_well_formed (_entries (calls (init name cap) cs))
  /\ agent_name (calls (init name cap) cs) = name
  /\ max_short_term (calls (init name cap) cs) = cap.
Proof.
  induction cs as [| c cs IH] using rev_ind.
  - simpl. repeat split. constructor.
  - rewrite calls_snoc. destruct IH as (Hlen & Hwf & Hname & Hcap).
    destruct c as [r s | t now | i now |]; simpl.
    + unfold add_message. destruct (_ <? _)%Z; simpl; auto.
    + rewrite !length_app. simpl. repeat split; auto; [lia |].
      apply Forall_app. split; [exact Hwf |].
      constructor; [| constructor]. now split.
    + rewrite !length_app. simpl. repeat split; auto; [lia |].
      apply Forall_app. split; [exact Hwf |].
      constructor; [| constructor]. now split.
    + auto.
Qed.

Section SearchFacts.
Variable render : EntryContent -> string.
Variable query : string.
Variable wanted : option string.
Variable limit : Z.

Lemma search_loop_spec (todo results : list MemoryEntry) :
  (Z.of_nat (List.length results) < Z.max limit 1)%Z ->
  search_loop render query wanted limit todo results
  = results
    ++ firstn (Z.to_nat (Z.max limit 1) - List.length results)
         (filter (search_hit render query wanted) todo).
Proof.
  revert results. induction todo as [| e todo IH]; intros results Hlen.
  - simpl. now rewrite firstn_nil, app_nil_r.
  - cbn [search_loop filter]. unfold search_hit at 1.
    destruct (match wanted with
              | Some ty => truthy ty && negb (String.eqb (entry_type e) ty)
              | None => false
              end); simpl.
    + now apply IH.
    + destruct (contains (lower query) (lower (render (content e)))).
      * rewrite length_app. simpl.
        destruct (limit <=? _)%Z eqn:E.
        -- apply Z.leb_le in E.
           replace (Z.to_nat (Z.max limit 1) - List.length results)
             with 1 by lia.
           simpl. reflexivity.
        -- apply Z.leb_gt in E. rewrite IH by (rewrite length_app; simpl; lia).
           rewrite length_app. simpl. rewrite <- app_assoc. simpl.
           replace (Z.to_nat (Z.max limit 1) - List.length results)
             with (S (Z.to_nat (Z.max limit 1)
                      - (List.length results + 1))) by lia.
           reflexivity.
      * now apply IH.
Qed.

(** X13. [search] returns, newest first, the first max(limit, 1) entries
    that have the wanted type (when a non-empty one is given) and whose
    rendering contains the query, both lower-cased; so a limit of zero or
    less still returns one hit. *)
Theorem X13_search_returns_latest_hits (m : AgentMemory) :
  search render query wanted limit m
  = firstn (Z.to_nat (Z.max limit 1))
      (filter (search_hit render query wanted) (rev (_entries m))).
Proof.
  unfold search. rewrite search_loop_spec by (simpl; lia).
  simpl. now rewrite Nat.sub_0_r.
Qed.
End SearchFacts.

End MoreMemory.

Section MoreRuntime.
Import Text Py AgentTypes Runtime Matching Invariants.

(** *** The message list of [think] *)

Lemma insert_before_last_snoc {A} (x u : A) (pre : list A) :
  insert_before_last x (pre ++ [u]) = pre ++ [x; u].
Proof.
  induction pre as [| y pre IH]; simpl; [reflexivity |].
  rewrite <- IH. now destruct (pre ++ [u]) eqn:E; [destruct pre |].
Qed.

Lemma insert_all_before_last {A} (l pre : list A) (u : A) :
  fold_left (fun ms x => insert_before_last x ms) l (pre ++ [u])
  = pre ++ l ++ [u].
Proof.
  revert pre. induction l as [| x l IH]; intros pre; simpl; [reflexivity |].
  rewrite insert_before_last_snoc.
  change (pre ++ [x; u]) with (pre ++ [x] ++ [u]).
  rewrite app_assoc, IH, <- app_assoc. reflexivity.
Qed.

(** X14. The message list that [think] sends starts with the system
    message, ends with the user message and has the recent conversation, at
    most ten messages, in order in between. *)
Theorem X14_think_sends_history_between_prompts (system_prompt prompt : string)
    (memory : Memory.AgentMemory) :
  think_messages system_prompt prompt memory
  = Memory.mkChatMessage "system" system_prompt
    :: Memory.get_recent_messages memory 10
       ++ [Memory.mkChatMessage "user" (user_text prompt)]
  /\ List.length (think_messages system_prompt prompt memory) <= 12.
Proof.
  unfold think_messages.
  change [Memory.mkChatMessage "system" system_prompt;
          Memory.mkChatMessage "user" (user_text prompt)]
    with ([Memory.mkChatMessage "system" system_prompt]
          ++ [Memory.mkChatMessage "user" (user_text prompt)]).
  rewrite insert_all_before_last. split; [reflexivity |].
  simpl. rewrite length_app. simpl.
  unfold Memory.get_recent_messages.
  rewrite last_n_length by lia. lia.
Qed.

(** *** Substrings *)

Lemma startswith_app (p s : string) :
  startswith p s = true <-> exists b, s = (p ++ b)%string.
Proof.
  revert s. induction p as [| a p IH]; intros s; simpl.
  - split; [intros _; now exists s | reflexivity].
  - destruct s as [| b s].
    + split; [discriminate | intros [x Hx]; discriminate].
    + rewrite andb_true_iff, Ascii.eqb_eq, IH. split.
      * intros [-> [x ->]]. now exists x.
      * intros [x Hx]. inversion Hx; subst. split; [reflexivity |].
        now exists x.
Qed.

Lemma contains_app (p s : string) :
  contains p s = true <-> exists a b, s = (a ++ p ++ b)%string.
Proof.
  induction s as [| c s IH].
  - simpl. rewrite orb_false_r, startswith_app. split.
    + intros [b Hb]. now exists EmptyString, b.
    + intros [a [b H]]. destruct a; [now exists b | discriminate].
  - cbn [contains]. rewrite orb_true_iff, startswith_app, IH. split.
    + intros [[b Hb] | [a [b Hab]]].
      * now exists EmptyString, b.
      * exists (String c a), b. simpl. now rewrite Hab.
    + intros [a [b H]]. destruct a as [| x a].
      * left. now exists b.
      * right. inversion H; subst. now exists a, b.
Qed.

Lemma lower_app (a b : string) :
  lower (a ++ b) = (lower a ++ lower b)%string.
Proof. induction a as [| c a IH]; simpl; [reflexivity | now rewrite IH]. Qed.

Lemma is_space_lower_char (c : ascii) :
  is_space (lower_char c) = is_space c.
Proof. destruct c as [[] [] [] [] [] [] [] []]; reflexivity. Qed.

Lemma is_newline_lower_char (c : ascii) :
  Ascii.eqb (lower_char c) Lines.newline = Ascii.eqb c Lines.newline.
Proof. destruct c as [[] [] [] [] [] [] [] []]; reflexivity. Qed.

Lemma split_on_lower (s : string) :
  split_on Lines.newline (lower s) = map lower (split_on Lines.newline s).
Proof.
  induction s as [| c s IH]; simpl; [reflexivity |].
  rewrite is_newline_lower_char, IH.
  destruct (Ascii.eqb c Lines.newline); [reflexivity |].
  now destruct (split_on Lines.newline s).
Qed.

Lemma lstrip_lower (s : string) : lstrip (lower s) = lower (lstrip s).
Proof.
  induction s as [| c s IH]; simpl; [reflexivity |].
  rewrite is_space_lower_char. now destruct (is_space c).
Qed.

Lemma rstrip_lower (s : string) : rstrip (lower s) = lower (rstrip s).
Proof.
  induction s as [| c s IH]; simpl; [reflexivity |].
  rewrite IH, is_space_lower_char.
  destruct (rstrip s); simpl; [now destruct (is_space c) | reflexivity].
Qed.

Lemma strip_lower (s : string) : strip (lower s) = lower (strip s).
Proof. unfold strip. now rewrite lstrip_lower, rstrip_lower. Qed.

(** A text without a newline that occurs in [s] occurs in one of its
    lines. *)
Lemma startswith_first_line (p s : string) :
  all_chars not_newline p = true -> startswith p s = true ->
  startswith p (hd EmptyString (split_on Lines.newline s)) = true.
Proof.
  revert s. induction p as [| a p IH]; intros s Hp Hs; [reflexivity |].
  destruct s as [| b s]; [discriminate |].
  simpl in Hp, Hs. apply andb_true_iff in Hp. destruct Hp as [Ha Hp].
  apply andb_true_iff in Hs. destruct Hs as [Hab Hs].
  apply Ascii.eqb_eq in Hab. subst b. cbn [split_on].
  unfold not_newline, Lines.is_newline in Ha. apply negb_true_iff in Ha.
  rewrite Ha. specialize (IH s Hp Hs).
  destruct (split_on Lines.newline s); simpl in *;
    now rewrite Ascii.eqb_refl.
Qed.

Lemma contains_in_a_line (p s : string) :
  all_chars not_newline p = true -> p <> EmptyString ->
  contains p s = true ->
  exists line, In line (split_on Lines.newline s)
               /\ contains p line = true.
Proof.
  intros Hp Hne. induction s as [| c s IH]; intros H.
  - simpl in H. destruct p; [congruence | discriminate].
  - cbn [contains] in H. apply orb_true_iff in H. cbn [split_on].
    destruct (Ascii.eqb c Lines.newline) eqn:Ec.
    + destruct H as [H | H].
      * exfalso. destruct p as [| a p]; [congruence |].
        simpl in H, Hp. apply andb_true_iff in H. destruct H as [Hac _].
        apply Ascii.eqb_eq in Hac. subst a.
        unfold not_newline, Lines.is_newline in Hp. now rewrite Ec in Hp.
      * destruct (IH H) as (line & Hin & Hc). exists line. split; auto.
        now right.
    + destruct H as [H | H].
      * pose proof (startswith_first_line p (String c s) Hp H) as Hf.
        cbn [split_on] in Hf. rewrite Ec in Hf.
        destruct (split_on Lines.newline s) as [| first others];
          simpl in Hf |- *.
        -- exists (String c EmptyString). split; [now left |].
           cbn [contains]. now rewrite Hf.
        -- exists (String c first). split; [now left |].
           cbn [contains]. now rewrite Hf.
      * destruct (IH H) as (line & Hin & Hc).
        destruct (split_on Lines.newline s) as [| first others];
          [contradiction |].
        destruct Hin as [Hin | Hin].
        -- subst line. exists (String c first). split; [now left |].
           cbn [contains]. rewrite Hc. apply orb_true_r.
        -- exists line. split; [now right | exact Hc].
Qed.

Lemma contains_lstrip (c : ascii) (p s : string) :
  is_space c = false -> contains (String c p) s = true ->
  contains (String c p) (lstrip s) = true.
Proof.
  intros Hc. induction s as [| x s IH]; intros H; [exact H |].
  cbn [lstrip]. destruct (is_space x) eqn:Ex; [| exact H].
  apply IH. cbn [contains] in H. apply orb_true_iff in H.
  destruct H as [H | H]; [| exact H].
  simpl in H. apply andb_true_iff in H. destruct H as [Hcx _].
  apply Ascii.eqb_eq in Hcx. congruence.
Qed.

Lemma rstrip_keep (x : string) (n : ascii) (b : string) :
  is_space n = false ->
  rstrip (x ++ String n b) = (x ++ String n (rstrip b))%string.
Proof.
  intros Hn. induction x as [| y x IH]; simpl.
  - rewrite Hn. now destruct (rstrip b).
  - rewrite IH. now destruct x.
Qed.

Lemma contains_rstrip (p : string) (n : ascii) (s : string) :
  is_space n = false ->
  contains (p ++ String n EmptyString) s = true ->
  contains (p ++ String n EmptyString) (rstrip s) = true.
Proof.
  intros Hn H. apply contains_app in H. destruct H as (a & b & ->).
  apply contains_app. exists a, (rstrip b).
  rewrite !append_assoc. simpl.
  rewrite <- append_assoc. rewrite rstrip_keep by exact Hn.
  now rewrite append_assoc.
Qed.

Lemma rstrip_idem (s : string) : rstrip (rstrip s) = rstrip s.
Proof.
  induction s as [| c s IH]; simpl; [reflexivity |].
  destruct (rstrip s) as [| k kept] eqn:E.
  - destruct (is_space c) eqn:Ec; simpl; [reflexivity | now rewrite Ec].
  - cbn [rstrip]. cbn [rstrip] in IH. now rewrite IH.
Qed.

Lemma lstrip_head (s : string) :
  lstrip s = EmptyString
  \/ exists c t, lstrip s = String c t /\ is_space c = false.
Proof.
  induction s as [| c s IH]; simpl; [now left |].
  destruct (is_space c) eqn:E; [exact IH |]. right. now exists c, s.
Qed.

Lemma strip_idem (s : string) : strip (strip s) = strip s.
Proof.
  unfold strip. destruct (lstrip_head s) as [-> | (c & t & -> & Hc)];
    [reflexivity |].
  pose proof (rstrip_keep EmptyString c t Hc) as H.
  cbn [append] in H. rewrite H. cbn [lstrip]. rewrite Hc.
  pose proof (rstrip_keep EmptyString c (rstrip t) Hc) as H'.
  cbn [append] in H'. now rewrite H', rstrip_idem.
Qed.

Lemma pattern_line_exists (content : string) :
  contains "pattern" (lower content) = true ->
  exists line, In line (split_on Lines.newline content)
               /\ contains "pattern" (lower line) = true.
Proof.
  intros Hc.
  destruct (contains_in_a_line "pattern" (lower content) eq_refl)
    as (line' & Hin & Hline); [discriminate | exact Hc |].
  rewrite split_on_lower in Hin. apply in_map_iff in Hin.
  destruct Hin as (line & <- & Hin). now exists line.
Qed.

Lemma extract_pattern_none (content : string) :
  _extract_pattern content = None <->
  contains "pattern" (lower content) = false.
Proof.
  unfold _extract_pattern.
  destruct (contains "pattern" (lower content)) eqn:Hc;
    [| split; reflexivity].
  destruct (pattern_line_exists content Hc) as (line & Hin & Hline).
  destruct (find _ _) as [hit |] eqn:Ef; [split; discriminate |].
  exfalso. pose proof (find_none _ _ Ef line Hin) as Hn.
  simpl in Hn. congruence.
Qed.

(** X15. [_extract_pattern] returns nothing exactly when the lower-cased
    text does not contain the word pattern; what it returns is a line of
    the text with the surrounding whitespace removed, it still contains
    the word, and stripping it again changes nothing. *)
Theorem X15_extract_pattern (content : string) :
  (_extract_pattern content = None <->
   contains "pattern" (lower content) = false)
  /\ (forall found,
        _extract_pattern content = Some found ->
        contains "pattern" (lower found) = true
        /\ strip found = found
        /\ exists line, In line (split_on Lines.newline content)
                        /\ found = strip line).
Proof.
  split; [apply extract_pattern_none |].
  unfold _extract_pattern. intros found Hfound.
  destruct (contains "pattern" (lower content)); [| discriminate].
  destruct (find (fun l => contains "pattern" (lower l))
                 (split_on Lines.newline content)) as [hit |] eqn:Ef;
    [| discriminate].
  inversion Hfound; subst found.
  apply find_some in Ef. destruct Ef as [Hhit Hp].
  split; [| split; [apply strip_idem | now exists hit]].
  rewrite <- strip_lower. unfold strip.
  apply (contains_rstrip "patter" "n"); [reflexivity |].
  now apply contains_lstrip.
Qed.

(** X16. The insight that [reflect] builds asks for a knowledge update
    exactly when the result failed or a pattern line was found; its lesson
    is the reply; [reflect] appends it to the insights and adds one
    insight entry to the log, of importance 1 when the result failed. *)
Theorem X16_reflect_marks_failures (memory : Memory.AgentMemory)
    (success : bool) (content : string) (now : Z) :
  (should_update_knowledge (build_insight success content) = true <->
   success = false
   \/ pattern_identified (build_insight success content) <> None)
  /\ lesson (build_insight success content) = content
  /\ Memory._insights (fst (reflect_finish memory success content now))
     = Memory._insights memory ++ [build_insight success content]
  /\ exists e,
       Memory._entries (fst (reflect_finish memory success content now))
       = Memory._entries memory ++ [e]
       /\ Memory.entry_type e = "insight"
       /\ (success = false -> Memory.importance e = 1%Q).
Proof.
  split; [| split; [reflexivity | split; [reflexivity |]]].
  - cbn [build_insight should_update_knowledge pattern_identified].
    pose proof (extract_pattern_none content) as Hnone.
    rewrite orb_true_iff, negb_true_iff. split.
    + intros [H | H]; [now left | right].
      intros Hn. apply Hnone in Hn. congruence.
    + intros [H | H]; [now left | right].
      destruct (contains "pattern" (lower content)) eqn:E; [reflexivity |].
      exfalso. apply H. now apply Hnone.
  - eexists. split; [reflexivity |]. split; [reflexivity |].
    intros ->. reflexivity.
Qed.

End MoreRuntime.

Section MoreSteps.
Import Text Py AgentTypes Runtime Matching Invariants Lines LineMatching.

Lemma lm_star_sound cls k m (input : string) :
  forall st,
    rest st = input ->
    m_star cls k input st = Some m ->
    exists st', lrun (Star cls) st st' /\ k st' = Some m.
Proof.
  induction input as [| c input IH]; intros st Hrest H; simpl in H.
  - exists st. split; [apply lrun_star_stop | exact H].
  - destruct (cls c) eqn:Ec.
    + destruct (m_star cls k input (step st c input)) eqn:E.
      * inversion H; subst.
        destruct (IH (step st c input) eq_refl E) as (st' & Hrun & Hk).
        exists st'. split; [| exact Hk].
        eapply lrun_star_more; eauto.
      * exists st. split; [apply lrun_star_stop | exact H].
    + exists st. split; [apply lrun_star_stop | exact H].
Qed.

Lemma lrmatch_sound (r : regex) :
  forall st k m,
    rmatch r st k = Some m -> exists st', lrun r st st' /\ k st' = Some m.
Proof.
  induction r as [| | cls | cls | cls | r1 IH1 r2 IH2 | r1 IH1 r2 IH2
                 | r1 IH1]; intros st k m H; simpl in H.
  - destruct (at_bol st) eqn:E; [| discriminate].
    exists st. split; [now apply lrun_bol | exact H].
  - destruct (at_eol st) eqn:E; [| discriminate].
    exists st. split; [now apply lrun_eol | exact H].
  - destruct (rest st) as [| c rest'] eqn:Er; [discriminate |].
    destruct (cls c) eqn:Ec; [| discriminate].
    eexists. split; [apply lrun_cls; eauto | exact H].
  - destruct (rest st) as [| c rest'] eqn:Er; [discriminate |].
    destruct (cls c) eqn:Ec; [| discriminate].
    destruct (lm_star_sound _ _ _ _ _ eq_refl H) as (st' & Hrun & Hk).
    exists st'. split; [eapply lrun_plus; eauto | exact Hk].
  - now apply (lm_star_sound cls k m (rest st) st eq_refl).
  - destruct (rmatch r1 st k) eqn:E.
    + inversion H; subst. destruct (IH1 _ _ _ E) as (st' & Hrun & Hk).
      exists st'. split; [now apply lrun_alt_l | exact Hk].
    + destruct (IH2 _ _ _ H) as (st' & Hrun & Hk).
      exists st'. split; [now apply lrun_alt_r | exact Hk].
  - destruct (IH1 _ _ _ H) as (st1 & Hr1 & Hk1).
    destruct (IH2 _ _ _ Hk1) as (st2 & Hr2 & Hk2).
    exists st2. split; [econstructor; eauto | exact Hk2].
  - destruct (IH1 _ _ _ H) as (st1 & Hr1 & Hk1).
    eexists. split; [apply lrun_group; exact Hr1 | exact Hk1].
Qed.

(** What a run of a class adds to the text read since the group was
    opened. *)
Lemma lrun_star_cur cls st st' :
  lrun (Star cls) st st' ->
  exists w, all_chars cls w = true /\ cur st' = (cur st ++ w)%string
            /\ group1 st' = group1 st.
Proof.
  intros H. remember (Star cls) as r eqn:Er.
  induction H; inversion Er; subst.
  - exists EmptyString. now rewrite append_nil_r.
  - destruct (IHlrun eq_refl) as (w & Hw & Hc & Hg).
    exists (String c w). simpl. rewrite H0, Hw.
    split; [reflexivity |]. rewrite Hc, Hg. simpl. unfold Re.snoc.
    now rewrite append_assoc.
Qed.

Lemma lrun_rest r st st' :
  lrun r st st' -> exists w, rest st = (w ++ rest st')%string.
Proof.
  induction 1; simpl.
  - now exists EmptyString.
  - now exists EmptyString.
  - exists (String c EmptyString). now rewrite H.
  - now exists EmptyString.
  - destruct IHlrun as [w Hw]. simpl in Hw. exists (String c w).
    rewrite H. simpl. now rewrite Hw.
  - destruct IHlrun as [w Hw]. simpl in Hw. exists (String c w).
    rewrite H. simpl. now rewrite Hw.
  - exact IHlrun.
  - exact IHlrun.
  - destruct IHlrun1 as [w1 H1]. destruct IHlrun2 as [w2 H2].
    exists (w1 ++ w2)%string. now rewrite H1, H2, append_assoc.
  - exact IHlrun.
Qed.

Lemma lrun_demands (P : ascii -> bool) r st st' :
  lrun r st st' -> ldemands P r ->
  all_chars (fun c => negb (P c)) (rest st) = true -> False.
Proof.
  induction 1; intros Hd Hfree; inversion Hd; subst.
  - rewrite H in Hfree. simpl in Hfree.
    match goal with Hc : forall c, cls c = true -> _ |- _ =>
      rewrite (Hc c H0) in Hfree end. discriminate.
  - rewrite H in Hfree. simpl in Hfree.
    match goal with Hc : forall c, cls c = true -> _ |- _ =>
      rewrite (Hc c H0) in Hfree end. discriminate.
  - now apply IHlrun.
  - now apply IHlrun.
  - now apply IHlrun1.
  - apply IHlrun2; [assumption |].
    destruct (lrun_rest _ _ _ H) as [w Hw].
    rewrite Hw, all_chars_app in Hfree. now apply andb_true_iff in Hfree.
  - now apply IHlrun.
Qed.

(** A match of the step pattern captures a non-empty text without a
    newline. *)
Lemma step_pattern_capture st m :
  lrun step_pattern st m ->
  exists c w, group1 m = Some (String c w)
              /\ all_chars not_newline (String c w) = true.
Proof.
  unfold step_pattern. intros H.
  inversion H as [| | | | | | | | r1 r2 s0 s1 s2 _ H1 |]; subst.
  inversion H1 as [| | | | | | | | r1 r2 s0 s3 s4 _ H2 |]; subst.
  inversion H2 as [| | | | | | | | r1 r2 s0 s5 s6 _ H3 |]; subst.
  inversion H3 as [| | | | | | | | r1 r2 s0 s7 s8 _ H4 |]; subst.
  inversion H4 as [| | | | | | | | r1 r2 s0 s9 s10 Hg He |]; subst.
  inversion He; subst.
  inversion Hg as [| | | | | | | | | r1 s0 s11 Hp]; subst.
  inversion Hp as [| | | | | cls s0 c rest' s12 Hr Hc Hs | | | |]; subst.
  destruct (lrun_star_cur _ _ _ Hs) as (w & Hw & Hcur & _).
  simpl in Hcur. exists c, w. simpl. rewrite Hcur, Hc, Hw. now split.
Qed.

Lemma step_pattern_demands_marker : ldemands marker step_pattern.
Proof.
  unfold step_pattern. apply ldemands_seq_r. apply ldemands_seq_r.
  apply ldemands_seq_l. apply ldemands_alt.
  - apply ldemands_seq_l. apply ldemands_plus. intros c Hc.
    unfold marker. now rewrite Hc.
  - apply ldemands_cls. intros c Hc. unfold marker. rewrite Hc.
    apply orb_true_r.
Qed.

Lemma findall_from_all (r : regex) (Q : string -> Prop) :
  (forall st m, rmatch r st Some = Some m -> Q (reported m)) ->
  forall s before skip, Forall Q (findall_from r before skip s).
Proof.
  intros HQ. induction s as [| c s IH]; intros before skip.
  - destruct skip; simpl; [| constructor].
    destruct (rmatch r _ Some) eqn:E; [| constructor].
    constructor; [now apply (HQ _ _ E) | constructor].
  - destruct skip; simpl; [| apply IH].
    destruct (rmatch r _ Some) eqn:E; [| apply IH].
    constructor; [now apply (HQ _ _ E) | apply IH].
Qed.

Lemma findall_from_none (r : regex) (P : ascii -> bool) :
  ldemands P r ->
  forall s before skip,
    all_chars (fun c => negb (P c)) s = true ->
    findall_from r before skip s = [].
Proof.
  intros Hd. induction s as [| c s IH]; intros before skip Hfree.
  - destruct skip; simpl; [| reflexivity].
    destruct (rmatch r _ Some) eqn:E; [| reflexivity].
    exfalso. destruct (lrmatch_sound _ _ _ _ E) as (st' & Hrun & _).
    exact (lrun_demands P _ _ _ Hrun Hd Hfree).
  - simpl in Hfree. apply andb_true_iff in Hfree.
    destruct Hfree as [Hc Hs].
    destruct skip; simpl; [| now apply IH].
    destruct (rmatch r _ Some) eqn:E; [| now apply IH].
    exfalso. destruct (lrmatch_sound _ _ _ _ E) as (st' & Hrun & _).
    apply (lrun_demands P _ _ _ Hrun Hd). simpl. now rewrite Hc, Hs.
Qed.

(** X17. [_extract_steps] returns at most ten steps, each a non-empty
    text without a newline, and no step at all for a text without a digit,
    a dash or a star. *)
Theorem X17_extract_steps_bounds (content : string) :
  List.length (_extract_steps content) <= 10
  /\ (forall step, In step (_extract_steps content) ->
                   step <> EmptyString
                   /\ all_chars not_newline step = true)
  /\ (all_chars (fun c => negb (marker c)) content = true ->
      _extract_steps content = []).
Proof.
  unfold _extract_steps. split; [| split].
  - rewrite length_firstn. lia.
  - intros step Hin.
    assert (Hall : Forall (fun g => g <> EmptyString
                                    /\ all_chars not_newline g = true)
                          (findall step_pattern content)).
    { apply findall_from_all. intros st m Hm.
      destruct (lrmatch_sound _ _ _ _ Hm) as (st' & Hrun & Hk).
      inversion Hk; subst st'.
      destruct (step_pattern_capture _ _ Hrun) as (c & w & Hg & Hw).
      unfold reported. rewrite Hg. split; [discriminate | exact Hw]. }
    rewrite Forall_forall in Hall. apply Hall.
    rewrite <- (firstn_skipn 10 (findall step_pattern content)).
    apply in_or_app. now left.
  - intros Hfree. unfold findall.
    now rewrite (findall_from_none _ _ step_pattern_demands_marker).
Qed.

End MoreSteps.

Section MoreThinking.
Import Text Py AgentTypes Runtime Matching Invariants.

Lemma extract_confidence_nonneg (content : string) :
  exists v, Agent._extract_confidence content = Some v /\ (0 <= v)%Q.
Proof.
  destruct (scan_result (lower content) Agent.patterns (fun p H => H))
    as (v & Hv & [Hhalf | (value & Hpos & Hval)]).
  - exists v. split; [exact Hv |]. subst v. discriminate.
  - exists v. split; [exact Hv |]. subst v.
    destruct (Consensus.Qgt_bool value 1); [| exact Hpos].
    apply Qle_shift_div_l; [reflexivity |]. now rewrite Qmult_0_l.
Qed.

(** X18. Whatever the reply text, the end of [think] raises nothing: it
    returns a thought whose content is the reply, whose confidence is not
    negative and which has at most ten reasoning steps, and records it as
    the last thought and the last log entry, with its confidence as
    importance, leaving the conversation untouched. *)
Theorem X18_think_always_records_a_thought (memory : Memory.AgentMemory)
    (reply : string) (now : Z) :
  exists t,
    think_finish memory reply now
    = Some (Memory.add_thought memory t now, t)
    /\ content t = reply
    /\ (0 <= confidence t)%Q
    /\ List.length (reasoning_steps t) <= 10
    /\ Memory._thoughts (Memory.add_thought memory t now)
       = Memory._thoughts memory ++ [t]
    /\ Memory._entries (Memory.add_thought memory t now)
       = Memory._entries memory
         ++ [Memory.mkMemoryEntry (Memory.OfThought t) "thought" now
               (confidence t) []]
    /\ Memory._messages (Memory.add_thought memory t now)
       = Memory._messages memory.
Proof.
  destruct (extract_confidence_nonneg reply) as (v & Hv & Hpos).
  unfold think_finish, parse_thought. rewrite Hv.
  eexists. split; [reflexivity |].
  cbn [content confidence reasoning_steps].
  split; [reflexivity |]. split; [exact Hpos |]. split.
  - unfold _extract_steps. rewrite length_firstn. lia.
  - repeat split.
Qed.

End MoreThinking.

Section MoreResearch.
Import Text Re.

(** X19. The research agent's [_extract_confidence] agrees with the base
    agent's whenever one of its two patterns matches the lower-cased text,
    and returns 0.6 when neither does. *)
Theorem X19_research_confidence_differs_only_in_fallback (content : string) :
  ((exists p, In p Research.patterns /\ search p (lower content) <> None) ->
   Research._extract_confidence content = Agent._extract_confidence content)
  /\ ((forall p, In p Research.patterns ->
                 search p (lower content) = None) ->
      Research._extract_confidence content = Some (6 # 10)%Q).
Proof.
  unfold Research._extract_confidence, Agent._extract_confidence,
    Research.patterns, Agent.patterns.
  set (text := lower content).
  set (p1 := Seq (Lit "confidence")
               (Seq (Plus Agent.colon_or_space) (Group Agent.number))).
  set (p2 := Seq (Group Agent.number) (Seq (Star is_space) (Lit "%"))).
  split.
  - intros (p & Hin & Hp). cbn [Research.scan Agent.scan].
    destruct (search p1 text) eqn:E1; [reflexivity |].
    destruct (search p2 text) eqn:E2; [reflexivity |].
    exfalso. destruct Hin as [<- | [<- | []]]; congruence.
  - intros Hnone. cbn [Research.scan].
    rewrite (Hnone p1) by (now left).
    rewrite (Hnone p2) by (right; now left). reflexivity.
Qed.

End MoreResearch.

Section MoreOrchestrator.
Import Text Orch OrchWording.

Lemma dict_get_in_keys {V} (k : string) (d : dict V) (v : V) :
  dict_get k d = Some v -> In k (map fst d).
Proof.
  induction d as [| [k' v'] d IH]; simpl; [discriminate |].
  destruct (String.eqb k' k) eqn:E.
  - apply String.eqb_eq in E. now left.
  - intros H. right. now apply IH.
Qed.






Lemma dict_get_none_not_in {V} (k : string) (d : dict V) :
  dict_get k d = None -> ~ In k (map fst d).
Proof.
  induction d as [| [k' v'] d IH]; simpl; [tauto |].
  destruct (String.eqb k' k) eqn:E; [discriminate |].
  apply String.eqb_neq in E. intros H [Hk | Hk]; [congruence |].
  now apply IH.
Qed.

Lemma dict_set_nodup {V} (k : string) (v : V) (d : dict V) :
  NoDup (map fst d) -> NoDup (map fst (dict_set k v d)).
Proof.
  intros H. rewrite dict_set_keys. unfold dict_mem.
  destruct (dict_get k d) eqn:E; [exact H |].
  apply NoDup_app; [exact H | constructor; [intros [] | constructor] |].
  intros x Hx [Hk | []]. subst x.
  exact (dict_get_none_not_in _ _ E Hx).
Qed.

(** X20. After [register_agent] the agent is found under its name, every
    other name maps to what it mapped to, a name already registered keeps
    its place in the registration order while a new one goes last, and
    the names stay distinct. *)
Theorem X20_register_agent_lookup (self : Orchestrator)
    (agent : Agent.BaseAgent) :
  dict_get (Agent.name agent) (_agents (register_agent self agent))
  = Some agent
  /\ (forall other, other <> Agent.name agent ->
        dict_get other (_agents (register_agent self agent))
        = dict_get other (_agents self))
  /\ map fst (_agents (register_agent self agent))
     = (if dict_mem (Agent.name agent) (_agents self)
        then map fst (_agents self)
        else map fst (_agents self) ++ [Agent.name agent])
  /\ (NoDup (map fst (_agents self)) ->
      NoDup (map fst (_agents (register_agent self agent)))).
Proof.
  unfold register_agent. cbn [_agents with_agents].
  split; [apply dict_get_set_same |]. split.
  { intros other Hne. now apply dict_get_set_other. }
  split; [apply dict_set_keys | apply dict_set_nodup].
Qed.

Lemma assign_task_missing_agent (self : Orchestrator) (t : ref)
    (key new_id : string) (now : Z) :
  assigned_agent (heap self t) = Some key -> key <> EmptyString ->
  dict_get key (_agents self) = None ->
  snd (assign_task self t new_id now) = false
  /\ _agents (fst (assign_task self t new_id now)) = _agents self
  /\ (forall r, heap (fst (assign_task self t new_id now)) r = heap self r).
Proof.
  intros Ha Hne Hget. unfold assign_task. rewrite Ha.
  assert (Ht : truthy_opt (Some key) = true)
    by (destruct key; [congruence | reflexivity]).
  rewrite Ht. cbn [negb]. rewrite Ha. cbn [_agents with_heap]. rewrite Hget.
  cbn [fst snd _agents heap with_heap]. repeat split.
  intros r. unfold upd. destruct (Nat.eqb r t) eqn:E; [| reflexivity].
  apply Nat.eqb_eq in E. now subst r.
Qed.



(** X25. [assign_task] on a task with a non-empty pre-assigned agent
    name that is registered succeeds without consulting the capabilities:
    the task becomes Assigned, keeping its other fields, the agent's inbox
    grows by one Request message from the orchestrator that carries the
    task id and description, and the other tasks, agents, projects and the
    queue stay as they were. *)
Theorem X25_assign_task_delivers_one_request (self : Orchestrator)
    (t : ref) (key : string) (agent : Agent.BaseAgent) (new_id : string)
    (now : Z) :
  assigned_agent (heap self t) = Some key -> key <> EmptyString ->
  dict_get key (_agents self) = Some agent ->
  snd (assign_task self t new_id now) = true
  /\ heap (fst (assign_task self t new_id now)) t
     = set_status (heap self t) ASSIGNED
  /\ (forall r, r <> t ->
        heap (fst (assign_task self t new_id now)) r = heap self r)
  /\ dict_get key (_agents (fst (assign_task self t new_id now)))
     = Some (Agent.receive_message agent
               (Messages.mkAgentMessage "orchestrator" (Agent.name agent)
                  Messages.REQUEST
                  (Messages.CTaskRequest
                     (Messages.mkTaskRequest (task_id (heap self t))
                        "development" (description (heap self t)) [] None
                        []))
                  1%Q now Messages.NORMAL None None new_id))
  /\ (forall other, other <> key ->
        dict_get other (_agents (fst (assign_task self t new_id now)))
        = dict_get other (_agents self))
  /\ _projects (fst (assign_task self t new_id now)) = _projects self
  /\ _task_queue (fst (assign_task self t new_id now)) = _task_queue self.
Proof.
  intros Ha Hne Hget. unfold assign_task. rewrite Ha.
  assert (Ht : truthy_opt (Some key) = true)
    by (destruct key; [congruence | reflexivity]).
  rewrite Ht. cbn [negb]. rewrite Ha. cbn [_agents with_heap]. rewrite Hget.
  cbn [fst snd _agents heap with_heap with_agents _projects _task_queue].
  split; [reflexivity |]. split; [now rewrite upd_same |]. split.
  { intros r Hr. now rewrite !upd_other by exact Hr. }
  split; [apply dict_get_set_same |]. split.
  { intros other Hother. now apply dict_get_set_other. }
  now split.
Qed.

Lemma X25_assign_task_delivers_one_request_witness :
  snd (assign_task Scenarios.preassigned 0 "0f3c9a1e" 7%Z) = true.
Proof.
  apply (X25_assign_task_delivers_one_request Scenarios.preassigned 0
           "backend" Samples.backend "0f3c9a1e" 7%Z).
  - reflexivity.
  - discriminate.
  - reflexivity.
Defined.

(** X26. [assign_task] on a task without an agent while no agent is
    registered fails, keeps the status and still writes the name unknown
    into the task; from then on [assign_task] on that task fails even
    after an agent with another name is registered. *)
Theorem X26_unknown_agent_sticks (self : Orchestrator) (t : ref)
    (new_id : string) (now : Z) :
  _agents self = [] -> truthy_opt (assigned_agent (heap self t)) = false ->
  snd (assign_task self t new_id now) = false
  /\ assigned_agent (heap (fst (assign_task self t new_id now)) t)
     = Some "unknown"
  /\ status (heap (fst (assign_task self t new_id now)) t)
     = status (heap self t)
  /\ forall agent new_id' now',
       Agent.name agent <> "unknown" ->
       snd (assign_task
              (register_agent (fst (assign_task self t new_id now)) agent)
              t new_id' now') = false.
Proof.
  intros Hag Hnone.
  assert (H1 : assign_task self t new_id now
               = (with_heap self
                    (upd (heap self) t
                       (set_assigned_agent (heap self t) (Some "unknown"))),
                  false)).
  { unfold assign_task. rewrite Hnone. cbn [negb].
    unfold _select_agent. rewrite Hag. cbn [find].
    cbn [assigned_agent set_assigned_agent _agents with_heap].
    now rewrite Hag. }
  rewrite H1. cbn [fst snd heap with_heap]. rewrite upd_same.
  split; [reflexivity |]. split; [reflexivity |]. split; [reflexivity |].
  intros agent new_id' now' Hname.
  apply assign_task_missing_agent with (key := "unknown").
  - cbn [heap register_agent with_agents with_heap]. now rewrite upd_same.
  - discriminate.
  - cbn [_agents register_agent with_agents with_heap]. rewrite Hag.
    simpl. apply String.eqb_neq in Hname. now rewrite Hname.
Qed.

Lemma X26_unknown_agent_sticks_witness :
  snd (assign_task (init (Samples.objects PENDING)) 2 "0f3c9a1e" 7%Z)
  = false.
Proof.
  apply (X26_unknown_agent_sticks (init (Samples.objects PENDING)) 2
           "0f3c9a1e" 7%Z); reflexivity.
Defined.

(** X27. When the dependencies of a polled task are met,
    [_process_task] leaves the queue as it was; the task is InProgress
    when [assign_task] succeeds, and when it fails the state is the one
    [assign_task] leaves, with the task's status and the agents
    unchanged. *)
Theorem X27_process_task_with_met_dependencies (self : Orchestrator)
    (t : ref) (new_id : string) (now : Z) :
  _dependencies_met self (heap self t) = true ->
  _task_queue (_process_task self t new_id now) = _task_queue self
  /\ (snd (assign_task self t new_id now) = true ->
      status (heap (_process_task self t new_id now) t) = IN_PROGRESS)
  /\ (snd (assign_task self t new_id now) = false ->
      _process_task self t new_id now = fst (assign_task self t new_id now)
      /\ status (heap (_process_task self t new_id now) t)
         = status (heap self t)
      /\ _agents (_process_task self t new_id now) = _agents self).
Proof.
  intros Hmet. unfold _process_task. rewrite Hmet. cbn [negb].
  unfold assign_task.
  set (t1 := if negb (truthy_opt (assigned_agent (heap self t)))
             then set_assigned_agent (heap self t)
                    (Some (_select_agent self (heap self t)))
             else heap self t).
  assert (Hst : status t1 = status (heap self t)).
  { unfold t1. now destruct (negb _). }
  destruct (assigned_agent t1) as [key |].
  - cbn [_agents with_heap].
    destruct (dict_get key (_agents self)) as [agent |];
      cbn [fst snd heap with_heap with_agents _task_queue _agents].
    + split; [reflexivity |]. split; [| discriminate].
      intros _. now rewrite upd_same.
    + split; [reflexivity |]. split; [discriminate |].
      intros _. split; [reflexivity |]. now rewrite upd_same.
  - cbn [fst snd heap with_heap _task_queue _agents].
    split; [reflexivity |]. split; [discriminate |].
    intros _. split; [reflexivity |]. now rewrite upd_same.
Qed.

Lemma X27_process_task_with_met_dependencies_witness :
  _task_queue (_process_task (Samples.workspace COMPLETED) 1 "0f3c9a1e" 7%Z)
  = _task_queue (Samples.workspace COMPLETED).
Proof.
  apply (X27_process_task_with_met_dependencies
           (Samples.workspace COMPLETED) 1 "0f3c9a1e" 7%Z).
  reflexivity.
Defined.

End MoreOrchestrator.

Section MoreReview.
Import Text Orch OrchWording Review Derived.

Lemma existsb_eqb_in (x : string) (l : list string) :
  existsb (String.eqb x) l = true <-> In x l.
Proof.
  rewrite existsb_exists. split.
  - intros (y & Hy & He). apply String.eqb_eq in He. now subst.
  - intros H. exists x. split; [exact H | apply String.eqb_refl].
Qed.

(** What the filling loop keeps true of the reviewers chosen so far. *)
Lemma fill_reviewers_spec (author : string) (count : Z)
    (names reviewers : list string) :
  ~ In author reviewers -> NoDup reviewers ->
  ~ In author (fill_reviewers author count names reviewers)
  /\ NoDup (fill_reviewers author count names reviewers)
  /\ (forall r, In r (fill_reviewers author count names reviewers) ->
                In r reviewers \/ In r names)
  /\ (exists more,
        fill_reviewers author count names reviewers = reviewers ++ more)
  /\ (Z.of_nat (List.length (fill_reviewers author count names reviewers))
      <= Z.max count (Z.of_nat (List.length reviewers) + 1))%Z.
Proof.
  revert reviewers. induction names as [| name names IH];
    intros reviewers Hauth Hnd; cbn [fill_reviewers].
  - repeat split; auto. exists []. now rewrite app_nil_r. lia.
  - destruct (negb (String.eqb name author)
              && negb (existsb (String.eqb name) reviewers)) eqn:E.
    + apply andb_true_iff in E. destruct E as [Ea Ein].
      apply negb_true_iff in Ea, Ein. apply String.eqb_neq in Ea.
      assert (Hnot : ~ In name reviewers).
      { intros Hin. apply existsb_eqb_in in Hin. congruence. }
      assert (Hauth' : ~ In author (reviewers ++ [name])).
      { intros Hin. apply in_app_or in Hin.
        destruct Hin as [Hin | [Hin | []]]; [tauto | congruence]. }
      assert (Hnd' : NoDup (reviewers ++ [name])).
      { apply NoDup_app; [exact Hnd | constructor; [intros [] | constructor] |].
        intros x Hx [Hk | []]. now subst x. }
      destruct (count <=? _)%Z eqn:Ec.
      * split; [exact Hauth' |]. split; [exact Hnd' |]. split.
        { intros r Hr. apply in_app_or in Hr.
          destruct Hr as [Hr | [Hr | []]]; [now left | right; now left]. }
        split; [now exists [name] |].
        rewrite length_app. simpl. lia.
      * apply Z.leb_gt in Ec. rewrite length_app in Ec. simpl in Ec.
        destruct (IH _ Hauth' Hnd') as (H1 & H2 & H3 & (more & H4) & H5).
        split; [exact H1 |]. split; [exact H2 |]. split.
        { intros r Hr. destruct (H3 r Hr) as [Hin | Hin].
          - apply in_app_or in Hin.
            destruct Hin as [Hin | [Hin | []]]; [now left | right; now left].
          - right. now right. }
        split.
        { exists (name :: more). rewrite H4, <- app_assoc. reflexivity. }
        rewrite length_app in H5. simpl in H5. lia.
    + destruct (IH _ Hauth Hnd) as (H1 & H2 & H3 & H4 & H5).
      split; [exact H1 |]. split; [exact H2 |]. split.
      { intros r Hr. destruct (H3 r Hr) as [Hin | Hin];
          [now left | right; now right]. }
      split; [exact H4 | exact H5].
Qed.

Lemma security_reviewer_spec (self : Orchestrator) (author : string) :
  ~ In author (security_reviewer self author)
  /\ NoDup (security_reviewer self author)
  /\ List.length (security_reviewer self author) <= 1
  /\ (forall r, In r (security_reviewer self author) ->
                In r (map fst (_agents self))).
Proof.
  unfold security_reviewer.
  destruct (find _ (_agents self)) as [[name a] |] eqn:E.
  - apply find_some in E. destruct E as [Hin Hp]. simpl in Hp.
    apply andb_true_iff in Hp. destruct Hp as [Hne _].
    apply negb_true_iff, String.eqb_neq in Hne.
    split; [intros [H | []]; congruence |].
    split; [constructor; [intros [] | constructor] |].
    split; [simpl; lia |].
    intros r [<- | []]. apply in_map_iff. now exists (name, a).
  - simpl. repeat split; try tauto; [constructor | lia].
Qed.

Lemma select_reviewers_nodup (self : Orchestrator) (author : string)
    (count : Z) :
  NoDup (_select_reviewers self author count).
Proof.
  unfold _select_reviewers.
  destruct (security_reviewer_spec self author) as (Ha & Hnd & _).
  now destruct (fill_reviewers_spec author count (map fst (_agents self))
                  (security_reviewer self author) Ha Hnd) as (_ & H & _).
Qed.

(** X22. [_select_reviewers] never selects the author, selects no name
    twice and only registered names, selects at most max(count, 2) names,
    and puts first the first registered agent other than the author whose
    lower-cased role contains the word security, when there is one. *)
Theorem X22_select_reviewers (self : Orchestrator) (author : string)
    (count : Z) :
  ~ In author (_select_reviewers self author count)
  /\ NoDup (_select_reviewers self author count)
  /\ (forall r, In r (_select_reviewers self author count) ->
                In r (map fst (_agents self)))
  /\ (Z.of_nat (List.length (_select_reviewers self author count))
      <= Z.max count 2)%Z
  /\ (forall name agent,
        find (fun entry : string * Agent.BaseAgent =>
                negb (String.eqb (fst entry) author)
                && contains "security" (lower (Agent.role (snd entry))))
             (_agents self) = Some (name, agent) ->
        hd_error (_select_reviewers self author count) = Some name).
Proof.
  unfold _select_reviewers.
  destruct (security_reviewer_spec self author) as (Ha & Hnd & Hlen & Hreg).
  destruct (fill_reviewers_spec author count (map fst (_agents self))
              (security_reviewer self author) Ha Hnd)
    as (H1 & H2 & H3 & (more & H4) & H5).
  split; [exact H1 |]. split; [exact H2 |]. split.
  { intros r Hr. destruct (H3 r Hr) as [Hin | Hin]; [now apply Hreg | exact Hin]. }
  split; [lia |].
  intros name agent Hfind. rewrite H4. unfold security_reviewer.
  now rewrite Hfind.
Qed.

(** *** Review requests *)

(** The review message that the reviewer at index [i] receives. *)
Lemma send_reviews_agents (request : Messages.ReviewRequest)
    (ids : nat -> string) (clock : nat -> Z) (reviewers : list string) :
  NoDup reviewers ->
  forall (self : Orchestrator) (start : nat),
    (_projects (send_reviews self request ids clock start reviewers)
     = _projects self
     /\ heap (send_reviews self request ids clock start reviewers)
        = heap self
     /\ _task_queue (send_reviews self request ids clock start reviewers)
        = _task_queue self)
    /\ forall name agent,
         dict_get name (_agents self) = Some agent ->
         (~ In name reviewers ->
          dict_get name
            (_agents (send_reviews self request ids clock start reviewers))
          = Some agent)
         /\ (forall k, nth_error reviewers k = Some name ->
               dict_get name
                 (_agents
                    (send_reviews self request ids clock start reviewers))
               = Some
                   (Agent.receive_message agent
                      (Messages.mkAgentMessage "orchestrator" name
                         Messages.REVIEW (Messages.CReviewRequest request)
                         1%Q (clock (start + k)) Messages.NORMAL None None
                         (ids (start + k))))).
Proof.
  induction reviewers as [| r reviewers IH]; intros Hnd self start.
  - simpl. split; [now repeat split |]. intros name agent Hget. split.
    + now intros _.
    + intros [| k]; discriminate.
  - inversion Hnd as [| x xs Hx Hxs]; subst. cbn [send_reviews].
    set (self' := match dict_get r (_agents self) with
                  | Some agent => _
                  | None => self
                  end).
    assert (Hsame : _projects self' = _projects self
                    /\ heap self' = heap self
                    /\ _task_queue self' = _task_queue self).
    { unfold self'. now destruct (dict_get r (_agents self)). }
    destruct (IH Hxs self' (S start)) as [(P1 & P2 & P3) Hag].
    destruct Hsame as (S1 & S2 & S3).
    split; [rewrite P1, P2, P3; now repeat split |].
    intros name agent Hget. split.
    + intros Hnot.
      assert (Hne : name <> r) by (intros ->; apply Hnot; now left).
      apply (Hag name agent).
      * unfold self'. destruct (dict_get r (_agents self)); [| exact Hget].
        cbn [_agents with_agents]. now rewrite dict_get_set_other.
      * intros Hin. apply Hnot. now right.
    + intros [| k] Hk; simpl in Hk.
      * inversion Hk; subst r.
        rewrite Nat.add_0_r.
        apply (Hag name); [| exact Hx].
        unfold self'. rewrite Hget. cbn [_agents with_agents].
        apply dict_get_set_same.
      * assert (Hne : name <> r).
        { intros ->. apply Hx. eapply nth_error_In; eauto. }
        replace (start + S k) with (S start + k) by lia.
        apply (Hag name agent); [| exact Hk].
        unfold self'. destruct (dict_get r (_agents self)); [| exact Hget].
        cbn [_agents with_agents]. now rewrite dict_get_set_other.
Qed.

(** X23. [coordinate_review] without given reviewers returns a fresh
    builder that requires two approvals with the veto enabled, has two
    votes pending, changes no task object, appends exactly one Review
    message carrying the review request to the inbox of each selected
    reviewer and leaves every other agent as it was. *)
Theorem X23_coordinate_review_requests (self : Orchestrator)
    (change_id change author : string) (ids : nat -> string)
    (clock : nat -> Z) :
  snd (coordinate_review self change_id change author None ids clock)
  = Consensus.init change_id ("Review: " ++ change_id)%string 2 true
  /\ Consensus.pending_count
       (snd (coordinate_review self change_id change author None ids clock))
     = 2%Z
  /\ heap (fst (coordinate_review self change_id change author None ids
                  clock)) = heap self
  /\ forall name agent,
       dict_get name (_agents self) = Some agent ->
       (~ In name (_select_reviewers self author 2) ->
        dict_get name
          (_agents
             (fst (coordinate_review self change_id change author None ids
                     clock)))
        = Some agent)
       /\ (forall k,
             nth_error (_select_reviewers self author 2) k = Some name ->
             dict_get name
               (_agents
                  (fst (coordinate_review self change_id change author None
                          ids clock)))
             = Some
                 (Agent.receive_message agent
                    (Messages.mkAgentMessage "orchestrator" name
                       Messages.REVIEW
                       (Messages.CReviewRequest
                          (Messages.mkReviewRequest change_id "code" change
                             EmptyString [] author
                             (Z.of_nat
                                (List.length
                                   (_select_reviewers self author 2)))))
                       1%Q (clock k) Messages.NORMAL None None (ids k)))).
Proof.
  unfold coordinate_review, effective_reviewers. cbn [fst snd].
  split; [reflexivity |]. split; [reflexivity |].
  pose proof (select_reviewers_nodup self author 2) as Hnd.
  destruct (send_reviews_agents
              (Messages.mkReviewRequest change_id "code" change EmptyString
                 [] author
                 (Z.of_nat (List.length (_select_reviewers self author 2))))
              ids clock _ Hnd self 0) as [(_ & Hheap & _) Hag].
  split; [exact Hheap |]. exact Hag.
Qed.

(** *** Conflict resolution *)

Lemma conflict_vote_never_vetoes (b : Consensus.ConsensusBuilder)
    (name : string) (t : AgentTypes.Thought) (now : Z) :
  Consensus._vetoed b = false ->
  Consensus._vetoed (Consensus.add_vote b (conflict_vote name t now))
  = false.
Proof.
  intros Hb. unfold Consensus.add_vote.
  destruct (Consensus.has_voted b _); [exact Hb |].
  cbn [conflict_vote Consensus.concerns Consensus.nonempty].
  now rewrite !andb_false_r.
Qed.

Lemma conflict_votes_never_veto (self : Orchestrator)
    (thinks : string -> AgentTypes.Thought) (now : Z)
    (agents : list string) (b : Consensus.ConsensusBuilder) :
  Consensus._vetoed b = false ->
  Consensus._vetoed (conflict_votes self thinks now agents b) = false.
Proof.
  revert b. induction agents as [| a agents IH]; intros b Hb; simpl;
    [exact Hb |].
  apply IH. destruct (dict_mem a (_agents self)); [| exact Hb].
  now apply conflict_vote_never_vetoes.
Qed.

Lemma conflict_votes_unregistered (self : Orchestrator)
    (thinks : string -> AgentTypes.Thought) (now : Z)
    (agents : list string) (b : Consensus.ConsensusBuilder) :
  (forall a, In a agents -> dict_mem a (_agents self) = false) ->
  conflict_votes self thinks now agents b = b.
Proof.
  revert b. induction agents as [| a agents IH]; intros b H; simpl;
    [reflexivity |].
  rewrite (H a (or_introl eq_refl)). apply IH.
  intros x Hx. apply H. now right.
Qed.

(** X24. [handle_conflict] always answers Approved or Rejected, never a
    veto reason, since the votes it casts carry no concern; when none of
    the named agents is registered the answer is Rejected. *)
Theorem X24_handle_conflict_decides_without_veto (self : Orchestrator)
    (agents : list string) (topic : string)
    (thinks : string -> AgentTypes.Thought) (now : Z) :
  (handle_conflict self agents topic thinks now = "Approved"
   \/ handle_conflict self agents topic thinks now = "Rejected")
  /\ ((forall a, In a agents -> dict_mem a (_agents self) = false) ->
      handle_conflict self agents topic thinks now = "Rejected").
Proof.
  unfold handle_conflict. split.
  - unfold Consensus.get_result.
    rewrite conflict_votes_never_veto by reflexivity.
    cbn [Consensus.final_decision].
    destruct (_ && _); [now left | now right].
  - intros Hnone. rewrite conflict_votes_unregistered by exact Hnone.
    unfold Consensus.get_result. cbn [Consensus._vetoed Consensus.init].
    cbn [Consensus.final_decision Consensus._votes].
    unfold Consensus.weight. simpl.
    now rewrite andb_false_r.
Qed.

(** *** Storing decomposed subtasks *)

Lemma stored_lookup (h : store) (k : string) (rs : list ref)
    (ts : dict ref) :
  dict_get k
    (fold_left (fun ts r => dict_set (task_id (h r)) r ts) rs ts)
  = match find (fun r => String.eqb (task_id (h r)) k) (rev rs) with
    | Some r => Some r
    | None => dict_get k ts
    end.
Proof.
  revert ts. induction rs as [| r rs IH]; intros ts; simpl; [reflexivity |].
  rewrite IH, find_app. simpl.
  destruct (find _ (rev rs)); [reflexivity |].
  destruct (String.eqb (task_id (h r)) k) eqn:E.
  - apply String.eqb_eq in E. subst k. apply dict_get_set_same.
  - apply dict_get_set_other. apply String.eqb_neq in E. congruence.
Qed.

(** X28. Storing decomposed subtasks in an unknown project changes
    nothing.  In a known project, looking up a task id afterwards gives the
    last of the new subtasks with that id, or what the project held under
    that id before; the other projects and the task objects stay as they
    were. *)
Theorem X28_add_to_project (self : Orchestrator) (pid : string)
    (subtasks : list ref) :
  (dict_get pid (_projects self) = None ->
   add_to_project self pid subtasks = self)
  /\ (forall p, dict_get pid (_projects self) = Some p ->
        exists p',
          dict_get pid (_projects (add_to_project self pid subtasks))
          = Some p'
          /\ (forall k,
                dict_get k (tasks p')
                = match
                    find (fun r => String.eqb (task_id (heap self r)) k)
                         (rev subtasks)
                  with
                  | Some r => Some r
                  | None => dict_get k (tasks p)
                  end)
          /\ (forall other, other <> pid ->
                dict_get other (_projects (add_to_project self pid subtasks))
                = dict_get other (_projects self))
          /\ heap (add_to_project self pid subtasks) = heap self).
Proof.
  unfold add_to_project. split.
  - intros H. now rewrite H.
  - intros p Hp. rewrite Hp. cbn [_projects with_projects heap].
    eexists. split; [apply dict_get_set_same |].
    cbn [tasks]. split; [intros k; apply stored_lookup |]. split.
    + intros other Hne. now apply dict_get_set_other.
    + reflexivity.
Qed.

End MoreReview.
